(** * BJTUselfService-AppleDevice: the two conversion scripts

    A shallow embedding of [generate_ios_icons.py] and
    [convert_captcha_model.py].  Both scripts are straight-line drivers of
    library calls (Pillow, os, torch, coremltools) wrapped in [try]/[except]
    blocks, so the embedding is a state-and-exception monad over a small
    world: the disk, the lines printed so far and the library calls made so
    far.  The library calls are modelled by their documented behaviour; the
    pixel data of images and the graphs of models are kept symbolic. *)

From stdpp Require Import gmap strings list fin_maps pretty.
From Stdlib Require Import ZArith Ascii.

Open Scope string_scope.
Open Scope list_scope.
Open Scope Z_scope.

(** ** Python exceptions and results *)

Record exn := Exn { exn_type : string; exn_msg : string }.

(** [str(e)], as interpolated by the f-strings of the scripts. *)
Definition str_exn (e : exn) : string := exn_msg e.

Inductive res (A : Type) : Type :=
| Ok (a : A)
| Raise (e : exn).
Arguments Ok {A} a.
Arguments Raise {A} e.

Definition is_ok {A} (r : res A) : bool :=
  match r with Ok _ => true | Raise _ => false end.

(** ** Paths

    The scripts name files by relative POSIX path strings.  The disk is
    keyed by the list of path components. *)

Abbreviation path := (list string).

Fixpoint split_slash (cur : string) (s : string) : list string :=
  match s with
  | EmptyString => [cur]
  | String c s' =>
      if Ascii.eqb c "/"%char then cur :: split_slash "" s'
      else split_slash (cur +:+ String c "") s'
  end.

Definition components (s : string) : path :=
  filter (λ c, c ≠ "") (split_slash "" s).

Definition starts_with_slash (s : string) : bool :=
  match s with
  | String c _ => Ascii.eqb c "/"%char
  | EmptyString => false
  end.

Fixpoint ends_with_slash (s : string) : bool :=
  match s with
  | EmptyString => false
  | String c EmptyString => Ascii.eqb c "/"%char
  | String _ s' => ends_with_slash s'
  end.

(** [os.path.join(a, b)] for two arguments. *)
Definition os_path_join (a b : string) : string :=
  if starts_with_slash b then b
  else if bool_decide (a = "") || ends_with_slash a then a +:+ b
  else a +:+ "/" +:+ b.

(** ** Images (Pillow) *)

Inductive mode :=
| M_1 | M_L | M_P | M_RGB | M_RGBA | M_CMYK | M_YCbCr | M_LAB | M_HSV
| M_I | M_F | M_LA | M_PA | M_RGBX | M_RGBa | M_La.

Global Instance mode_eq_dec : EqDecision mode.
Proof. solve_decision. Defined.

Definition mode_name (m : mode) : string :=
  match m with
  | M_1 => "1" | M_L => "L" | M_P => "P" | M_RGB => "RGB" | M_RGBA => "RGBA"
  | M_CMYK => "CMYK" | M_YCbCr => "YCbCr" | M_LAB => "LAB" | M_HSV => "HSV"
  | M_I => "I" | M_F => "F" | M_LA => "LA" | M_PA => "PA" | M_RGBX => "RGBX"
  | M_RGBa => "RGBa" | M_La => "La"
  end.

(** The modes that carry an alpha band. *)
Definition has_alpha (m : mode) : bool :=
  match m with
  | M_RGBA | M_LA | M_PA | M_RGBa | M_La => true
  | _ => false
  end.

(** The modes the PNG writer accepts. *)
Definition png_writable (m : mode) : bool :=
  match m with
  | M_1 | M_L | M_LA | M_I | M_P | M_RGB | M_RGBA => true
  | _ => false
  end.

Inductive resampling := NEAREST | BOX | BILINEAR | HAMMING | BICUBIC | LANCZOS.

(** An image is its provenance: a bitmap stored in a file, or the result
    of [convert] or [resize] on another image.  Mode and size are read off
    the term; the pixels themselves are never inspected by the script.
    Pillow opens a file lazily: [Image.open] reads the header only, and the
    pixel data is decoded when an operation first needs it.  [data] is the
    answer of the decoder at that point; a truncated file opens and then
    fails to decode. *)
Inductive image :=
| Bitmap (id : N) (m : mode) (w h : Z) (data : res ())
| Converted (src : image) (m : mode)
| Resized (src : image) (w h : Z) (f : resampling).

Fixpoint im_mode (im : image) : mode :=
  match im with
  | Bitmap _ m _ _ _ => m
  | Converted _ m => m
  | Resized src _ _ _ => im_mode src
  end.

Fixpoint im_size (im : image) : Z * Z :=
  match im with
  | Bitmap _ _ w h _ => (w, h)
  | Converted src _ => im_size src
  | Resized _ w h _ => (w, h)
  end.

(** [Image.load]: decodes the pixel data of an image opened from a file; an
    image made by [convert] or [resize] is in memory already. *)
Definition im_load (im : image) : res () :=
  match im with
  | Bitmap _ _ _ _ data => data
  | _ => Ok ()
  end.

(** ** Tensors, TorchScript modules and Core ML models *)

Definition shape := list Z.

Inductive dtype := Float32 | Float16 | Float64 | Int32 | Int64.

(** What calling a module returns: a tensor, or some other Python object
    (a tuple of tensors, say) that has no [shape] attribute. *)
Inductive value :=
| Tensor (sh : shape) (dt : dtype)
| Other (repr : string).

(** The form of the model handed to the converter: the module as loaded,
    or the result of [torch.jit.trace]. *)
Inductive jit_form := AsLoaded | Retraced.

(** A loaded TorchScript module.  Its graph is opaque to the script; what
    the script can observe is whether each library entry point accepts
    it. *)
Record script_module := ScriptModule {
  sm_graph : N;
  sm_call : shape → res value;
  sm_trace : shape → res ();
  sm_coreml : jit_form → res ()
}.

Record tensor_type := TensorType {
  tt_name : string;
  tt_shape : option shape;
  tt_dtype : option dtype
}.

Inductive compute_unit := CU_ALL | CU_CPU_ONLY | CU_CPU_AND_GPU | CU_CPU_AND_NE.

(** A converted model.  [input_description] and [output_description] hold
    one entry per input and output feature, keyed by the feature's name. *)
Record mlmodel := MLModel {
  ml_graph : N;
  ml_form : jit_form;
  ml_inputs : list tensor_type;
  ml_outputs : list tensor_type;
  ml_convert_to : string;
  ml_compute_units : compute_unit;
  author : string;
  license : string;
  short_description : string;
  input_description : list (string * string);
  output_description : list (string * string)
}.

(** ** The world *)

Inductive content :=
| Raster (fmt : string) (im : image)
| TorchScript (m : script_module)
| MLPackage (m : mlmodel)
| Blob (data : string).

Inductive node :=
| Dir
| File (c : content).

(** The library calls a script makes, in order. *)
Inductive call :=
| Call_exists (p : string)
| Call_makedirs (p : string)
| Call_open (p : string)
| Call_convert (m : mode)
| Call_resize (w h : Z) (f : resampling)
| Call_save (p : string) (fmt : string)
| Call_jit_load (p : string)
| Call_eval
| Call_rand (sh : shape)
| Call_forward (sh : shape)
| Call_jit_trace (sh : shape)
| Call_ct_convert (f : jit_form)
| Call_set_author (s : string)
| Call_set_license (s : string)
| Call_set_short_description (s : string)
| Call_set_output_description (k s : string)
| Call_ml_save (p : string).

Global Instance resampling_eq_dec : EqDecision resampling.
Proof. solve_decision. Defined.

Global Instance jit_form_eq_dec : EqDecision jit_form.
Proof. solve_decision. Defined.

Global Instance call_eq_dec : EqDecision call.
Proof. solve_decision. Defined.

(** [pkg_write] is the answer of the environment to the one package write
    an exporter run may attempt, for what the shape of the disk does not
    decide (permissions, free space, ...). *)
Record world := World {
  disk : gmap path node;
  stdout : list string;
  calls : list call;
  pkg_write : res ()
}.

Definition is_dir (d : gmap path node) (p : path) : bool :=
  match p with
  | [] => true
  | _ => match d !! p with Some Dir => true | _ => false end
  end.

Definition parent (p : path) : path := removelast p.

(** ** The script monad: state plus Python exceptions *)

Definition M (A : Type) : Type := world → res A * world.

Global Instance M_ret : MRet M := λ A a w, (Ok a, w).

Global Instance M_bind : MBind M := λ A B f m w,
  match m w with
  | (Ok a, w') => f a w'
  | (Raise e, w') => (Raise e, w')
  end.

Definition raise {A} (e : exn) : M A := λ w, (Raise e, w).

(** [try: body / except Exception as e: ...] hands the outcome of the body
    to the code that follows. *)
Definition try_ {A} (body : M A) : M (res A) := λ w,
  let '(r, w') := body w in (Ok r, w').

Definition print (s : string) : M () := λ w,
  (Ok (), World (disk w) (stdout w ++ [s]) (calls w) (pkg_write w)).

Definition log (c : call) : M () := λ w,
  (Ok (), World (disk w) (stdout w) (calls w ++ [c]) (pkg_write w)).

Definition get_disk : M (gmap path node) := λ w, (Ok (disk w), w).

Definition put_disk (d : gmap path node) : M () := λ w,
  (Ok (), World d (stdout w) (calls w) (pkg_write w)).

Definition lift {A} (r : res A) : M A := λ w, (r, w).

Fixpoint for_ {A} (l : list A) (body : A → M ()) : M () :=
  match l with
  | [] => mret ()
  | x :: l' => body x;; for_ l' body
  end.

(** ** Library calls used by the icon generator *)

Definition quoted (p : string) : string := "'" +:+ p +:+ "'".

Definition os_path_exists (p : string) : M bool :=
  log (Call_exists p);;
  d ← get_disk;
  mret (bool_decide (is_Some (d !! components p))).

(** The path string of a list of components. *)
Fixpoint join_path (p : path) : string :=
  match p with
  | [] => ""
  | [c] => c
  | c :: p' => c +:+ "/" +:+ join_path p'
  end.

(** The walk of [os.makedirs(p, exist_ok=True)] down the components of
    [p]: a missing directory is created, an existing one is passed, a
    regular file in the way is an error.  A regular file at [p] itself is
    reported as existing; a regular file above [p] is reported when the
    first directory below it cannot be made, and the error names that
    directory. *)
Fixpoint mkdirs (name : string) (pre rest : path) (d : gmap path node)
    : res (gmap path node) :=
  match rest with
  | [] => Ok d
  | c :: rest' =>
      let p := pre ++ [c] in
      match d !! p with
      | Some Dir => mkdirs name p rest' d
      | Some (File _) =>
          match rest' with
          | [] => Raise (Exn "FileExistsError"
                     ("[Errno 17] File exists: " +:+ quoted name))
          | c' :: _ => Raise (Exn "NotADirectoryError"
                         ("[Errno 20] Not a directory: "
                          +:+ quoted (join_path (p ++ [c']))))
          end
      | None => mkdirs name p rest' (<[p := Dir]> d)
      end
  end.

Definition os_makedirs (p : string) : M () :=
  log (Call_makedirs p);;
  d ← get_disk;
  d' ← lift (mkdirs p [] (components p) d);
  put_disk d'.

Definition Image_open (p : string) : M image :=
  log (Call_open p);;
  d ← get_disk;
  match d !! components p with
  | Some (File (Raster _ im)) => mret im
  | Some (File _) =>
      raise (Exn "UnidentifiedImageError"
               ("cannot identify image file " +:+ quoted p))
  | Some Dir =>
      raise (Exn "IsADirectoryError"
               ("[Errno 21] Is a directory: " +:+ quoted p))
  | None =>
      raise (Exn "FileNotFoundError"
               ("[Errno 2] No such file or directory: " +:+ quoted p))
  end.

(** [im.convert(m)] loads the pixel data first. *)
Definition Image_convert (im : image) (m : mode) : M image :=
  log (Call_convert m);;
  lift (im_load im);;
  mret (Converted im m).

(** [im.resize(size, f)] loads the pixel data first; the size is checked by
    the resampler. *)
Definition Image_resize (im : image) (size : Z * Z) (f : resampling) : M image :=
  log (Call_resize size.1 size.2 f);;
  lift (im_load im);;
  if bool_decide (0 < size.1) && bool_decide (0 < size.2)
  then mret (Resized im size.1 size.2 f)
  else raise (Exn "ValueError" "height and width must be > 0").

(** [im.save(p, "PNG", optimize=True)].  The file is opened for writing
    first, so a missing parent directory or a directory at [p] fails before
    anything is encoded; a mode the PNG writer rejects leaves an existing
    file truncated and a fresh one removed. *)
Definition Image_save (im : image) (p fmt : string) : M () :=
  log (Call_save p fmt);;
  d ← get_disk;
  let k := components p in
  if negb (is_dir d (parent k)) then
    raise (Exn "FileNotFoundError"
             ("[Errno 2] No such file or directory: " +:+ quoted p))
  else if is_dir d k then
    raise (Exn "IsADirectoryError"
             ("[Errno 21] Is a directory: " +:+ quoted p))
  else if png_writable (im_mode im) then
    put_disk (<[k := File (Raster fmt im)]> d)
  else
    (match d !! k with
     | Some _ => put_disk (<[k := File (Blob "")]> d)
     | None => mret ()
     end);;
    raise (Exn "OSError"
             ("cannot write mode " +:+ mode_name (im_mode im) +:+ " as PNG")).

(** ** generate_ios_icons.py *)

Definition android_icon_path : string :=
  "AndroidOrigin/app/src/main/res/mipmap-xxxhdpi/ic_launcher.webp".

Definition ios_appicon_dir : string :=
  "BJTUselfServiceApple/BJTUselfServiceApple/Assets.xcassets/AppIcon.appiconset".

(** The dict literal, in insertion order (its keys are pairwise distinct,
    so no entry overrides another). *)
Definition ios_icon_sizes : list (string * (Z * Z)) :=
  [ ("Icon-App-20x20@2x.png", (40, 40));
    ("Icon-App-20x20@3x.png", (60, 60));
    ("Icon-App-29x29@2x.png", (58, 58));
    ("Icon-App-29x29@3x.png", (87, 87));
    ("Icon-App-40x40@2x.png", (80, 80));
    ("Icon-App-40x40@3x.png", (120, 120));
    ("Icon-App-60x60@2x.png", (120, 120));
    ("Icon-App-60x60@3x.png", (180, 180));
    ("Icon-App-76x76@1x.png", (76, 76));
    ("Icon-App-76x76@2x.png", (152, 152));
    ("Icon-App-83.5x83.5@2x.png", (167, 167));
    ("Icon-App-1024x1024@1x.png", (1024, 1024));
    ("Icon-Mac-16x16@1x.png", (16, 16));
    ("Icon-Mac-16x16@2x.png", (32, 32));
    ("Icon-Mac-32x32@1x.png", (32, 32));
    ("Icon-Mac-32x32@2x.png", (64, 64));
    ("Icon-Mac-128x128@1x.png", (128, 128));
    ("Icon-Mac-128x128@2x.png", (256, 256));
    ("Icon-Mac-256x256@1x.png", (256, 256));
    ("Icon-Mac-256x256@2x.png", (512, 512));
    ("Icon-Mac-512x512@1x.png", (512, 512));
    ("Icon-Mac-512x512@2x.png", (1024, 1024)) ].

Definition nl : string := String (ascii_of_nat 10) "".

Definition show_size (size : Z * Z) : string :=
  "(" +:+ pretty size.1 +:+ ", " +:+ pretty size.2 +:+ ")".

(** The body of the [for] loop, for one table entry. *)
Definition generate_one (img : image) (entry : string * (Z * Z)) : M () :=
  let '(filename, size) := entry in
  let output_path := os_path_join ios_appicon_dir filename in
  resized ← Image_resize img size LANCZOS;
  Image_save resized output_path "PNG";;
  print ("  ✅ 生成: " +:+ filename +:+ " (" +:+ pretty size.1 +:+ "x"
         +:+ pretty size.2 +:+ ")").

(** The body of the [try] block. *)
Definition generate_all (sizes : list (string * (Z * Z))) : M () :=
  img ← Image_open android_icon_path;
  img ← (if bool_decide (im_mode img ≠ M_RGBA)
         then Image_convert img M_RGBA else mret img);
  print ("源图标尺寸: " +:+ show_size (im_size img));;
  for_ sizes (generate_one img).

Definition generate_icons : M () :=
  found ← os_path_exists android_icon_path;
  if negb found then
    print ("❌ 错误: 找不到 Android 图标: " +:+ android_icon_path)
  else
    os_makedirs ios_appicon_dir;;
    print "📱 开始从 Android 图标生成 iOS AppIcon...";;
    print ("源文件: " +:+ android_icon_path);;
    r ← try_ (generate_all ios_icon_sizes);
    match r with
    | Raise e => print ("❌ 错误: " +:+ str_exn e)
    | Ok _ =>
        print (nl +:+ "🎉 成功生成 " +:+ pretty (Z.of_nat (length ios_icon_sizes))
               +:+ " 个 iOS 图标!");;
        print ("输出目录: " +:+ ios_appicon_dir)
    end.

(** A run of a script starts with nothing printed and no call made. *)
Definition boot (d : gmap path node) (pw : res ()) : world := World d [] [] pw.

Definition run_icons (d : gmap path node) : res () * world :=
  generate_icons (boot d (Ok ())).

(** ** Library calls used by the model exporter *)

(** The exception of [torch.jit.load] on a path that holds no TorchScript
    archive: the path is checked first, then the zip reader rejects the
    file, a file shorter than a zip trailer (22 bytes) as no archive at all.
    A model package is a directory on disk. *)
Definition load_failure (p : string) (n : option node) : exn :=
  match n with
  | None =>
      Exn "ValueError" ("The provided filename " +:+ p +:+ " does not exist")
  | Some Dir | Some (File (MLPackage _)) =>
      Exn "ValueError" ("The provided filename " +:+ p +:+ " is a directory")
  | Some (File (Blob data)) =>
      if bool_decide (String.length data < 22)%nat then
        Exn "RuntimeError"
          "PytorchStreamReader failed reading zip archive: not a ZIP archive"
      else
        Exn "RuntimeError"
          "PytorchStreamReader failed reading zip archive: failed finding central directory"
  | Some (File _) =>
      Exn "RuntimeError"
        "PytorchStreamReader failed reading zip archive: failed finding central directory"
  end.

Definition torch_jit_load (p : string) : M script_module :=
  log (Call_jit_load p);;
  d ← get_disk;
  match d !! components p with
  | Some (File (TorchScript m)) => mret m
  | n => raise (load_failure p n)
  end.

Definition module_eval (m : script_module) : M () := log Call_eval.

(** [torch.rand] of the given dimensions: only the shape of the random
    tensor matters. *)
Definition torch_rand (sh : shape) : M shape :=
  log (Call_rand sh);; mret sh.

Definition module_call (m : script_module) (x : shape) : M value :=
  log (Call_forward x);; lift (sm_call m x).

Definition torch_jit_trace (m : script_module) (x : shape)
    : M (script_module * jit_form) :=
  log (Call_jit_trace x);; lift (sm_trace m x);; mret (m, Retraced).

Definition ct_convert (tm : script_module * jit_form)
    (inputs outputs : list tensor_type) (convert_to : string)
    (compute_units : compute_unit) : M mlmodel :=
  log (Call_ct_convert tm.2);;
  lift (sm_coreml tm.1 tm.2);;
  mret (MLModel (sm_graph tm.1) tm.2 inputs outputs convert_to compute_units
          "" "" "" ((λ i, (tt_name i, "")) <$> inputs)
          ((λ o, (tt_name o, "")) <$> outputs)).

Definition set_author (m : mlmodel) (s : string) : M mlmodel :=
  log (Call_set_author s);;
  mret (MLModel (ml_graph m) (ml_form m) (ml_inputs m) (ml_outputs m)
          (ml_convert_to m) (ml_compute_units m)
          s (license m) (short_description m) (input_description m)
          (output_description m)).

Definition set_license (m : mlmodel) (s : string) : M mlmodel :=
  log (Call_set_license s);;
  mret (MLModel (ml_graph m) (ml_form m) (ml_inputs m) (ml_outputs m)
          (ml_convert_to m) (ml_compute_units m)
          (author m) s (short_description m) (input_description m)
          (output_description m)).

Definition set_short_description (m : mlmodel) (s : string) : M mlmodel :=
  log (Call_set_short_description s);;
  mret (MLModel (ml_graph m) (ml_form m) (ml_inputs m) (ml_outputs m)
          (ml_convert_to m) (ml_compute_units m)
          (author m) (license m) s (input_description m)
          (output_description m)).

(** Assignment to the description of the feature named [k]: the first
    feature of that name is updated; no feature of that name is an
    error. *)
Fixpoint describe (k s : string) (l : list (string * string))
    : option (list (string * string)) :=
  match l with
  | [] => None
  | (k', s') :: l' =>
      if bool_decide (k = k') then Some ((k', s) :: l')
      else cons (k', s') <$> describe k s l'
  end.

Definition set_output_description (m : mlmodel) (k s : string) : M mlmodel :=
  log (Call_set_output_description k s);;
  match describe k s (output_description m) with
  | Some l =>
      mret (MLModel (ml_graph m) (ml_form m) (ml_inputs m) (ml_outputs m)
              (ml_convert_to m) (ml_compute_units m)
              (author m) (license m) (short_description m)
              (input_description m) l)
  | None => raise (Exn "AttributeError" ("No feature with name " +:+ k +:+ "."))
  end.

(** The disk without the node at [k] and everything below it. *)
Definition remove_tree (k : path) (d : gmap path node) : gmap path node :=
  filter (λ kv, ¬ k `prefix_of` kv.1) d.

(** What [mlmodel.save(p)] does to the disk for a model package.  A package
    is kept as one node.  Whatever package or directory is at [p] is removed
    with all it holds ([shutil.rmtree]); a regular file at [p] makes that
    fail.  Then the package is copied to [p] ([shutil.copytree]), which
    makes the directories above [p] that are missing; a regular file above
    [p] makes that fail, and the disk is then as it was (nothing exists
    below a regular file). *)
Definition regular_file (n : option node) : bool :=
  match n with
  | Some (File (MLPackage _)) => false
  | Some (File _) => true
  | _ => false
  end.

Definition save_package (p : string) (m : mlmodel) (d : gmap path node)
    : res (gmap path node) :=
  let k := components p in
  if regular_file (d !! k) then
    Raise (Exn "NotADirectoryError" ("[Errno 20] Not a directory: " +:+ quoted p))
  else
    match mkdirs p [] k (remove_tree k d) with
    | Ok d' => Ok (<[k := File (MLPackage m)]> d')
    | Raise e => Raise e
    end.

(** [mlmodel.save(p)].  [pkg_write] stands for what neither the script nor
    the shape of the disk decides (permissions, free space): when it
    refuses, the save fails before anything is written. *)
Definition ml_save (m : mlmodel) (p : string) : M () :=
  log (Call_ml_save p);;
  (λ w, lift (pkg_write w) w);;
  d ← get_disk;
  d' ← lift (save_package p m d);
  put_disk d'.

Definition attr_shape (v : value) : M shape :=
  match v with
  | Tensor sh _ => mret sh
  | Other r =>
      raise (Exn "AttributeError" (quoted r +:+ " object has no attribute 'shape'"))
  end.

Definition attr_dtype (v : value) : M dtype :=
  match v with
  | Tensor _ dt => mret dt
  | Other r =>
      raise (Exn "AttributeError" (quoted r +:+ " object has no attribute 'dtype'"))
  end.

Fixpoint show_dims (sh : shape) : string :=
  match sh with
  | [] => ""
  | [n] => pretty n
  | n :: sh' => pretty n +:+ ", " +:+ show_dims sh'
  end.

Definition show_shape (sh : shape) : string :=
  "torch.Size([" +:+ show_dims sh +:+ "])".

Definition show_dtype (dt : dtype) : string :=
  match dt with
  | Float32 => "torch.float32"
  | Float16 => "torch.float16"
  | Float64 => "torch.float64"
  | Int32 => "torch.int32"
  | Int64 => "torch.int64"
  end.

Fixpoint repeat_string (s : string) (n : nat) : string :=
  match n with
  | O => ""
  | S n' => s +:+ repeat_string s n'
  end.

(** ** convert_captcha_model.py *)

Definition model_path : string := "AndroidOrigin/app/src/main/assets/model.pt".

Definition output_path : string :=
  "BJTUselfServiceApple/BJTUselfServiceApple/CaptchaModel.mlpackage".

Definition example_shape : shape := [1; 3; 42; 130].

Definition first_logits_description : string := "MultiArray30 RGB 验证码图片".

Definition second_logits_description : string :=
  "形状 [1, 15, 8] - 8个位置的类别 logits".

Definition load_diagnostic (e : exn) : list string :=
  [ "❌ 无法加载模型: " +:+ str_exn e;
    nl +:+ "⚠️  需要原始训练代码来重建模型架构";
    "   或提供一个可以直接加载的 .pt 文件" ].

Definition convert_diagnostic (e : exn) : list string :=
  [ "❌ 转换失败: " +:+ str_exn e;
    nl +:+ "💡 可能的原因:";
    "   - 模型架构不支持 Core ML";
    "   - 需要调整输入/输出定义";
    "   - PyTorch 版本不兼容" ].

Definition success_report : list string :=
  [ "✅ 转换成功!";
    "📦 模型已保存到: " +:+ output_path;
    "📏 输入形状: 1×3×42×130 (C×H×W)";
    "📐 输出形状: 1×15×8 (classes×positions)";
    nl +:+ "📝 下一步:";
    "   1. 在 Xcode 中将 CaptchaModel.mlpackage 拖入项目";
    "   2. 确保 'Target Membership' 勾选了主 target";
    "   3. 运行 App 测试验证码识别" ].

(** The body of the last [try] block: convert, attach the metadata, save,
    report. *)
Definition convert_and_save (traced_model : script_module * jit_form)
    (tensor_input : tensor_type) : M () :=
  mlmodel ← ct_convert traced_model [tensor_input]
              [TensorType "logits" None None] "mlprogram" CU_ALL;
  mlmodel ← set_author mlmodel "BJTU SelfService Team";
  mlmodel ← set_license mlmodel "同 Android 版本";
  mlmodel ← set_short_description mlmodel
    "验证码识别模型 -MultiArray [1, 3, 42, 130] - RGB 验证码张量 (归一化到 0-1)";
  mlmodel ← set_output_description mlmodel "logits" first_logits_description;
  mlmodel ← set_output_description mlmodel "logits" second_logits_description;
  ml_save mlmodel output_path;;
  for_ success_report print.

Definition convert_model : M () :=
  print "🔄 开始转换 PyTorch 模型为 Core ML...";;
  r ← try_ (model ← torch_jit_load model_path;
            print "✅ 成功加载 TorchScript 模型";;
            mret model);
  match r with
  | Raise e => for_ (load_diagnostic e) print
  | Ok model =>
      module_eval model;;
      example_input ← torch_rand example_shape;
      t ← try_ (tm ← torch_jit_trace model example_input;
                print "✅ 模型追踪完成";;
                mret tm);
      traced_model ←
        match t with
        | Ok tm => mret tm
        | Raise _ => print "ℹ️  模型已是 TorchScript 格式";; mret (model, AsLoaded)
        end;
      print "🔄 转换为 Core ML 格式...";;
      let tensor_input := TensorType "image" (Some example_shape) (Some Float32) in
      c ← try_ (convert_and_save traced_model tensor_input);
      match c with
      | Raise e => for_ (convert_diagnostic e) print
      | Ok _ => mret ()
      end
  end.

Definition inspect_model : M bool :=
  print "🔍 检查模型信息...";;
  r ← try_ (model ← torch_jit_load model_path;
            print "✅ 模型类型: TorchScript";;
            example_input ← torch_rand example_shape;
            output ← module_call model example_input;
            print ("📏 输入形状: " +:+ show_shape example_input);;
            sh ← attr_shape output;
            print ("📐 输出形状: " +:+ show_shape sh);;
            dt ← attr_dtype output;
            print ("🎯 输出数据类型: " +:+ show_dtype dt);;
            mret true);
  match r with
  | Ok b => mret b
  | Raise e => print ("❌ 检查失败: " +:+ str_exn e);; mret false
  end.

Definition main : M () :=
  print (repeat_string "=" 60%nat);;
  print "PyTorch 验证码模型 → Core ML 转换工具";;
  print (repeat_string "=" 60%nat);;
  ok ← inspect_model;
  if (ok : bool) then
    print (nl +:+ repeat_string "=" 60%nat);;
    convert_model
  else
    print (nl +:+ "⚠️  请确保 model.pt 存在且可以正常加载").

(** ** Vocabulary of the properties *)

(** The disk key of the icon written for [filename]. *)
Definition icon_path (filename : string) : path :=
  components (os_path_join ios_appicon_dir filename).

Definition icon_paths (sizes : list (string * (Z * Z))) : list path :=
  (λ e, icon_path e.1) <$> sizes.

(** The directories [os.makedirs] walks through: [pre/c1], [pre/c1/c2],
    ... *)
Fixpoint prefixes (pre rest : path) : list path :=
  match rest with
  | [] => []
  | c :: rest' => (pre ++ [c]) :: prefixes (pre ++ [c]) rest'
  end.

(** The destination directory and its ancestors. *)
Abbreviation appicon_dirs := (prefixes [] (components ios_appicon_dir)).

(** The image the loop resizes: the source, converted unless it already is
    RGBA. *)
Definition working_image (im : image) : image :=
  if bool_decide (im_mode im ≠ M_RGBA) then Converted im M_RGBA else im.

(** The file the loop writes for a table entry. *)
Definition icon_of (img : image) (size : Z * Z) : node :=
  File (Raster "PNG" (Resized img size.1 size.2 LANCZOS)).

Definition icon_line (e : string * (Z * Z)) : string :=
  "  ✅ 生成: " +:+ e.1 +:+ " (" +:+ pretty e.2.1 +:+ "x" +:+ pretty e.2.2 +:+ ")".

Definition icon_calls (e : string * (Z * Z)) : list call :=
  [Call_resize e.2.1 e.2.2 LANCZOS;
   Call_save (os_path_join ios_appicon_dir e.1) "PNG"].

Definition is_save (c : call) : bool :=
  match c with Call_save _ _ => true | _ => false end.

Definition is_open (c : call) : bool :=
  match c with Call_open _ => true | _ => false end.

Definition is_convert (c : call) : bool :=
  match c with Call_convert _ => true | _ => false end.

Definition is_makedirs (c : call) : bool :=
  match c with Call_makedirs _ => true | _ => false end.

Definition is_jit_load (c : call) : bool :=
  match c with Call_jit_load _ => true | _ => false end.

Definition is_jit_trace (c : call) : bool :=
  match c with Call_jit_trace _ => true | _ => false end.

Definition is_ct_convert (c : call) : bool :=
  match c with Call_ct_convert _ => true | _ => false end.

Definition is_ml_save (c : call) : bool :=
  match c with Call_ml_save _ => true | _ => false end.

Definition is_set_output_description (c : call) : bool :=
  match c with Call_set_output_description _ _ => true | _ => false end.

(** The source image is present and Pillow can open it. *)
Definition source_image (d : gmap path node) (im : image) : Prop :=
  ∃ fmt, d !! components android_icon_path = Some (File (Raster fmt im)).


(** The directories above the package path. *)
Abbreviation package_dirs := (prefixes [] (parent (components output_path))).

(** Whether a node stops a directory from being made at its path. *)
Definition blocker (n : option node) : bool :=
  match n with Some (File _) => true | _ => false end.

(** A path is out of the way of the package save: it is not the package
    path, not below it, and not one of the directories above it. *)
Definition off_package (p : path) : bool :=
  bool_decide (p ∉ package_dirs)
  && bool_decide (¬ components output_path `prefix_of` p).

(** The package can be put at the output path: no regular file stands at
    that path (an earlier package or a directory is replaced) or where one
    of the directories above it goes. *)
Definition package_creatable (d : gmap path node) : Prop :=
  regular_file (d !! components output_path) = false
  ∧ Forall (λ p, ∀ c, d !! p ≠ Some (File c)) package_dirs.

(** The model artifact is present and [torch.jit.load] accepts it. *)
Definition loads (d : gmap path node) (m : script_module) : Prop :=
  d !! components model_path = Some (File (TorchScript m)).

Definition fails_to_load (d : gmap path node) : Prop :=
  ∀ m, ¬ loads d m.

(** The exception [torch.jit.load] raises on a disk where the artifact does
    not load. *)
Definition load_error (d : gmap path node) : exn :=
  load_failure model_path (d !! components model_path).

(** The form of the model that reaches the converter. *)
Definition form_used (m : script_module) : jit_form :=
  if is_ok (sm_trace m example_shape) then Retraced else AsLoaded.

(** What the icon table promises for one entry, read back from the disk:
    a PNG of exactly the entry's size, with an alpha band. *)
Definition icon_present (d : gmap path node) (e : string * (Z * Z)) : Prop :=
  ∃ im, d !! icon_path e.1 = Some (File (Raster "PNG" im))
        ∧ im_size im = e.2 ∧ im_mode im = M_RGBA
        ∧ has_alpha (im_mode im) = true.

(** The [save] calls of a run that goes through the whole table. *)
Definition table_saves : list call :=
  (λ e, Call_save (os_path_join ios_appicon_dir e.1) "PNG") <$> ios_icon_sizes.

(** A run of the icon generator that wrote the whole table: it returned
    normally, its saves are the 22 saves of the table and nothing else, and
    every entry can be read back. *)
Definition all_icons_written (out : res () * world) : Prop :=
  out.1 = Ok ()
  ∧ filter is_save (calls out.2) = table_saves
  ∧ length (filter is_save (calls out.2)) = 22%nat
  ∧ Forall (icon_present (disk out.2)) ios_icon_sizes.

(** Sample disks. *)
Definition dirs_of (s : string) : list (path * node) :=
  (λ p, (p, Dir)) <$> prefixes [] (components s).

Definition source_dirs : list (path * node) :=
  dirs_of "AndroidOrigin/app/src/main/res/mipmap-xxxhdpi".

Definition rgba_source : image := Bitmap 1 M_RGBA 192 192 (Ok ()).

Definition rgb_source : image := Bitmap 2 M_RGB 192 192 (Ok ()).

(** A grey image with an alpha band. *)
Definition la_source : image := Bitmap 3 M_LA 192 192 (Ok ()).

Definition disk_with (im : image) : gmap path node :=
  list_to_map (source_dirs
               ++ [(components android_icon_path, File (Raster "WEBP" im))]).


(** The exception [Image.open] raises on a node that is not an image file. *)
Definition open_error (n : node) : exn :=
  match n with
  | Dir => Exn "IsADirectoryError"
             ("[Errno 21] Is a directory: " +:+ quoted android_icon_path)
  | File _ => Exn "UnidentifiedImageError"
                ("cannot identify image file " +:+ quoted android_icon_path)
  end.

(** What a run prints and calls around the loop. *)
Definition prelude_lines : list string :=
  [ "📱 开始从 Android 图标生成 iOS AppIcon...";
    "源文件: " +:+ android_icon_path ].

Definition epilogue_lines : list string :=
  [ nl +:+ "🎉 成功生成 " +:+ pretty (Z.of_nat (length ios_icon_sizes)) +:+ " 个 iOS 图标!";
    "输出目录: " +:+ ios_appicon_dir ].

Definition prelude_calls : list call :=
  [ Call_exists android_icon_path;
    Call_makedirs ios_appicon_dir;
    Call_open android_icon_path ].

Definition convert_calls (im : image) : list call :=
  if bool_decide (im_mode im ≠ M_RGBA) then [Call_convert M_RGBA] else [].

(** Decidable readings of "no regular file at [p]" and "no directory at
    [p]", for checking sample disks by evaluation. *)
Definition no_file_at (d : gmap path node) (p : path) : bool :=
  match d !! p with Some (File _) => false | _ => true end.


(** The exporter's fixed conversion descriptor, the package it assembles
    from a module that converts, and what it prints and calls on the way. *)
Definition tensor_input : tensor_type :=
  TensorType "image" (Some example_shape) (Some Float32).

Definition packaged (m : script_module) (f : jit_form) : mlmodel :=
  MLModel (sm_graph m) f [tensor_input] [TensorType "logits" None None]
    "mlprogram" CU_ALL
    "BJTU SelfService Team" "同 Android 版本"
    "验证码识别模型 -MultiArray [1, 3, 42, 130] - RGB 验证码张量 (归一化到 0-1)"
    [("image", "")]
    [("logits", second_logits_description)].

Definition metadata_calls : list call :=
  [ Call_set_author "BJTU SelfService Team";
    Call_set_license "同 Android 版本";
    Call_set_short_description
      "验证码识别模型 -MultiArray [1, 3, 42, 130] - RGB 验证码张量 (归一化到 0-1)";
    Call_set_output_description "logits" first_logits_description;
    Call_set_output_description "logits" second_logits_description ].

Definition trace_line (m : script_module) : string :=
  if is_ok (sm_trace m example_shape) then "✅ 模型追踪完成"
  else "ℹ️  模型已是 TorchScript 格式".

Definition start_line : string := "🔄 开始转换 PyTorch 模型为 Core ML...".

Definition staged_lines (m : script_module) : list string :=
  [ start_line; "✅ 成功加载 TorchScript 模型"; trace_line m;
    "🔄 转换为 Core ML 格式..." ].

Definition staged_calls : list call :=
  [ Call_jit_load model_path; Call_eval; Call_rand example_shape;
    Call_jit_trace example_shape ].

Definition banner : list string :=
  [ repeat_string "=" 60%nat; "PyTorch 验证码模型 → Core ML 转换工具";
    repeat_string "=" 60%nat; "🔍 检查模型信息..." ].

Definition inspect_calls : list call :=
  [ Call_jit_load model_path; Call_rand example_shape; Call_forward example_shape ].

Definition inspect_report (sh : shape) (dt : dtype) : list string :=
  [ "✅ 模型类型: TorchScript";
    "📏 输入形状: " +:+ show_shape example_shape;
    "📐 输出形状: " +:+ show_shape sh;
    "🎯 输出数据类型: " +:+ show_dtype dt;
    nl +:+ repeat_string "=" 60%nat ].

Definition run_exporter (d : gmap path node) (pw : res ()) : res () * world :=
  main (boot d pw).

(** Sample modules and checkouts for the exporter. *)
Definition model_dirs : list (path * node) :=
  dirs_of "AndroidOrigin/app/src/main/assets"
  ++ dirs_of "BJTUselfServiceApple/BJTUselfServiceApple".

Definition disk_with_model (m : script_module) : gmap path node :=
  list_to_map (model_dirs ++ [(components model_path, File (TorchScript m))]).


Definition captcha_output : res value := Ok (Tensor [1; 15; 8] Float32).

(** A module that runs, traces and converts. *)
Definition sound_module : script_module :=
  ScriptModule 7 (λ _, captcha_output) (λ _, Ok ()) (λ _, Ok ()).

(** A module that runs and yields the declared shape, but contains an
    operation coremltools cannot lower. *)
Definition unconvertible_module : script_module :=
  ScriptModule 8 (λ _, captcha_output) (λ _, Ok ())
    (λ _, Raise (Exn "NotImplementedError" "unsupported op")).


(** Vocabulary and sample inputs of the further properties. *)
Definition is_forward (c : call) : bool :=
  match c with Call_forward _ => true | _ => false end.

(** The check of [inspect_model] passes: the artifact loads and calling it
    on the example input returns a tensor. *)
Definition inspection_passes (d : gmap path node) : Prop :=
  ∃ m sh dt, loads d m ∧ sm_call m example_shape = Ok (Tensor sh dt).

(** A module whose forward pass raises on the example input, but which
    traces and converts. *)
Definition crashing_module : script_module :=
  ScriptModule 10 (λ _, Raise (Exn "RuntimeError" "size mismatch"))
    (λ _, Ok ()) (λ _, Ok ()).


(** A checkout in which a regular file is named like the first component
    of the destination directory. *)
Definition blocked_disk : gmap path node :=
  list_to_map (source_dirs
               ++ [(components android_icon_path, File (Raster "WEBP" rgba_source));
                   (["BJTUselfServiceApple"], File (Blob ""))]).

(** First byte of a line, and the success line of the icon generator. *)
Definition head_char (s : string) : option ascii :=
  match s with String c _ => Some c | EmptyString => None end.

Definition success_line : string :=
  nl +:+ "🎉 成功生成 " +:+ pretty (Z.of_nat (length ios_icon_sizes)) +:+ " 个 iOS 图标!".

(** * Properties *)

(** ** Facts about the fixed paths *)

Lemma icon_sizes_length : length ios_icon_sizes = 22%nat.
Proof. reflexivity. Qed.

Lemma icon_paths_NoDup : NoDup (icon_paths ios_icon_sizes).
Proof. apply (bool_decide_unpack _). by vm_compute. Qed.

Lemma source_not_icon : components android_icon_path ∉ icon_paths ios_icon_sizes.
Proof. apply (bool_decide_unpack _). by vm_compute. Qed.

Lemma source_not_dir :
  components android_icon_path ∉ prefixes [] (components ios_appicon_dir).
Proof. apply (bool_decide_unpack _). by vm_compute. Qed.

Lemma icon_parent :
  Forall (λ e, parent (icon_path e.1) = components ios_appicon_dir) ios_icon_sizes.
Proof. apply (bool_decide_unpack _). by vm_compute. Qed.

Lemma icon_not_dir :
  Forall (λ p, p ∉ appicon_dirs) (icon_paths ios_icon_sizes).
Proof. apply (bool_decide_unpack _). by vm_compute. Qed.


Lemma appicon_dir_last : components ios_appicon_dir ∈ appicon_dirs.
Proof. apply (bool_decide_unpack _). by vm_compute. Qed.

(** ** The disk *)


Lemma is_dir_false_lookup (d : gmap path node) (p : path) :
  is_dir d p = false → p ≠ [] ∧ d !! p ≠ Some Dir.
Proof.
  destruct p as [|c p]; [done|]. unfold is_dir.
  destruct (d !! (c :: p)) as [[|?]|]; naive_solver.
Qed.

Lemma is_dir_insert_file (d : gmap path node) (k : path) c (q : path) :
  is_dir d k = false → is_dir (<[k := File c]> d) q = is_dir d q.
Proof.
  intros Hk. destruct q as [|a q]; [done|]. unfold is_dir.
  destruct (decide (k = a :: q)) as [<-|Hne].
  - rewrite lookup_insert_eq. apply is_dir_false_lookup in Hk as [Hk1 Hk2].
    destruct k; [done|]. destruct (d !! (s :: k)) as [[|?]|]; congruence.
  - by rewrite lookup_insert_ne.
Qed.

(** ** [os.makedirs] *)

Lemma mkdirs_changes (name : string) (rest : path) : ∀ (pre : path) (d d' : gmap path node),
  mkdirs name pre rest d = Ok d' →
  ∀ p : path, d' !! p = d !! p
       ∨ (p ∈ prefixes pre rest ∧ d !! p = None ∧ d' !! p = Some Dir).
Proof.
  induction rest as [|c rest IH]; intros pre d d' H p; simpl in H.
  - left. congruence.
  - destruct (d !! (pre ++ [c])) as [[|f]|] eqn:E.
    + destruct (IH _ _ _ H p) as [Hp|(Hin & Hn & Hd)]; [by left|].
      right. split; [|done]. simpl. apply elem_of_cons. by right.
    + destruct rest; discriminate.
    + destruct (IH _ _ _ H p) as [Hp|(Hin & Hn & Hd)].
      * destruct (decide (pre ++ [c] = p)) as [<-|Hne].
        -- right. rewrite Hp, lookup_insert_eq. split; [|done].
           simpl. apply elem_of_cons. by left.
        -- left. by rewrite Hp, lookup_insert_ne.
      * destruct (decide (pre ++ [c] = p)) as [<-|Hne].
        -- by rewrite lookup_insert_eq in Hn.
        -- rewrite lookup_insert_ne in Hn; [|done]. right.
           split; [|done]. simpl. apply elem_of_cons. by right.
Qed.

Lemma mkdirs_frame (name : string) (pre rest : path) (d d' : gmap path node) (p : path) :
  mkdirs name pre rest d = Ok d' → p ∉ prefixes pre rest → d' !! p = d !! p.
Proof.
  intros H Hp. destruct (mkdirs_changes _ _ _ _ _ H p) as [?|(? & _)]; done.
Qed.

Lemma mkdirs_keeps_dir (name : string) (pre rest : path) (d d' : gmap path node) (p : path) :
  mkdirs name pre rest d = Ok d' → d !! p = Some Dir → d' !! p = Some Dir.
Proof.
  intros H Hp. destruct (mkdirs_changes _ _ _ _ _ H p) as [?|(_ & _ & ?)]; congruence.
Qed.

Lemma mkdirs_creates (name : string) (rest : path) : ∀ (pre : path) (d d' : gmap path node),
  mkdirs name pre rest d = Ok d' →
  Forall (λ p, d' !! p = Some Dir) (prefixes pre rest).
Proof.
  induction rest as [|c rest IH]; intros pre d d' H; simpl in *; [constructor|].
  destruct (d !! (pre ++ [c])) as [[|f]|] eqn:E.
  - constructor; [|by eapply IH]. by eapply mkdirs_keeps_dir.
  - destruct rest; discriminate.
  - constructor; [|by eapply IH].
    eapply mkdirs_keeps_dir; [done|]. by rewrite lookup_insert_eq.
Qed.

Lemma mkdirs_present (name : string) (rest : path) : ∀ (pre : path) (d : gmap path node),
  Forall (λ p, d !! p = Some Dir) (prefixes pre rest) →
  mkdirs name pre rest d = Ok d.
Proof.
  induction rest as [|c rest IH]; intros pre d H; simpl in *; [done|].
  apply Forall_cons in H as [H1 H2]. rewrite H1. by apply IH.
Qed.

Lemma mkdirs_idempotent (name : string) (pre rest : path) (d d' : gmap path node) :
  mkdirs name pre rest d = Ok d' → mkdirs name pre rest d' = Ok d'.
Proof. intros H. apply mkdirs_present. by eapply mkdirs_creates. Qed.

(** ** The loop body *)

Lemma working_image_mode im : im_mode (working_image im) = M_RGBA.
Proof.
  unfold working_image. case_bool_decide as H; [done|].
  by destruct (decide (im_mode im = M_RGBA)).
Qed.

Lemma working_image_size im : im_size (working_image im) = im_size im.
Proof. unfold working_image. by case_bool_decide. Qed.


Lemma converted_image_load im :
  im_mode im ≠ M_RGBA → im_load (working_image im) = Ok ().
Proof. intros H. unfold working_image. by rewrite bool_decide_eq_true_2. Qed.

(** One iteration on an image that decodes, that finds its parent directory
    and no directory in its way, writes the icon. *)
Lemma generate_one_ok (img : image) (e : string * (Z * Z)) (d : gmap path node)
    (s : list string) (c : list call) (pw : res ()) :
  im_mode img = M_RGBA → im_load img = Ok () → 0 < e.2.1 → 0 < e.2.2 →
  is_dir d (parent (icon_path e.1)) = true →
  is_dir d (icon_path e.1) = false →
  generate_one img e (World d s c pw) =
    (Ok (), World (<[icon_path e.1 := icon_of img e.2]> d)
                  (s ++ [icon_line e]) (c ++ icon_calls e) pw).
Proof.
  destruct e as [fn [w h]]. simpl. intros Hm Hl Hw Hh Hp Hk.
  unfold generate_one, Image_resize, Image_save, icon_path in *.
  unfold mbind, M_bind, mret, M_ret, log, lift, get_disk, put_disk, raise, print.
  cbn [disk stdout calls pkg_write fst snd]. rewrite Hl.
  rewrite !bool_decide_eq_true_2 by done.
  cbn [andb disk stdout calls pkg_write fst snd im_mode].
  rewrite Hp, Hk, Hm. cbn [negb png_writable disk stdout calls pkg_write].
  unfold icon_of, icon_line, icon_calls. cbn [fst snd].
  by rewrite <- app_assoc.
Qed.

(** Whatever one iteration does, it either writes its icon over something
    that is not a directory, or raises and leaves the disk as it was. *)
Lemma generate_one_cases (img : image) (e : string * (Z * Z)) (w : world)
    (r : res ()) (w' : world) :
  im_mode img = M_RGBA →
  generate_one img e w = (r, w') →
  (r = Ok ()
   ∧ im_load img = Ok ()
   ∧ is_dir (disk w) (parent (icon_path e.1)) = true
   ∧ is_dir (disk w) (icon_path e.1) = false
   ∧ 0 < e.2.1 ∧ 0 < e.2.2
   ∧ w' = World (<[icon_path e.1 := icon_of img e.2]> (disk w))
                (stdout w ++ [icon_line e]) (calls w ++ icon_calls e) (pkg_write w))
  ∨ (∃ x, r = Raise x ∧ disk w' = disk w ∧ stdout w' = stdout w
          ∧ pkg_write w' = pkg_write w
          ∧ (calls w' = calls w ++ [Call_resize e.2.1 e.2.2 LANCZOS]
             ∨ calls w' = calls w ++ icon_calls e)).
Proof.
  intros Hm H. destruct w as [d s c pw].
  destruct (im_load img) as [[]|x] eqn:E0.
  2:{ right. destruct e as [fn [wd ht]]. revert H.
      unfold generate_one, Image_resize.
      unfold mbind, M_bind, mret, M_ret, log, lift.
      cbn [disk stdout calls pkg_write fst snd]. rewrite E0.
      intros; simplify_eq; by eauto 10. }
  destruct (decide (0 < e.2.1 ∧ 0 < e.2.2
                    ∧ is_dir d (parent (icon_path e.1)) = true
                    ∧ is_dir d (icon_path e.1) = false)) as [(?&?&?&?)|Hn].
  - rewrite generate_one_ok in H by done. left. by simplify_eq.
  - right. destruct e as [fn [wd ht]]. revert H.
    unfold generate_one, Image_resize, Image_save, icon_path in *.
    unfold mbind, M_bind, mret, M_ret, log, lift, get_disk, put_disk, raise, print.
    cbn [disk stdout calls pkg_write fst snd] in *. rewrite E0.
    destruct (bool_decide (0 < wd)) eqn:E1; destruct (bool_decide (0 < ht)) eqn:E2;
      cbn [andb disk stdout calls pkg_write fst snd];
      try (intros; simplify_eq; by eauto 10).
    apply bool_decide_eq_true_1 in E1, E2.
    unfold icon_calls; cbn [fst snd].
    destruct (is_dir d (parent _)) eqn:E3;
      cbn [negb disk stdout calls pkg_write];
      [|intros; simplify_eq; rewrite <- app_assoc; by eauto 10].
    destruct (is_dir d (components _)) eqn:E4;
      cbn [negb disk stdout calls pkg_write];
      [intros; simplify_eq; rewrite <- app_assoc; by eauto 10|].
    naive_solver.
Qed.

(** ** The loop over the size table *)

Lemma for_cons {A} (x : A) (l : list A) (body : A → M ()) (w : world) :
  for_ (x :: l) body w =
    match body x w with
    | (Ok _, w1) => for_ l body w1
    | (Raise e, w1) => (Raise e, w1)
    end.
Proof. reflexivity. Qed.

Lemma world_eta (w : world) :
  World (disk w) (stdout w) (calls w) (pkg_write w) = w.
Proof. by destruct w. Qed.

(** Every node the loop changes is a table path that held no directory and
    now holds its icon. *)
Lemma loop_changes (img : image) (l : list (string * (Z * Z))) :
  im_mode img = M_RGBA →
  ∀ (w : world) (r : res ()) (w' : world),
  for_ l (generate_one img) w = (r, w') →
  ∀ p : path, disk w' !! p = disk w !! p
    ∨ (∃ e, e ∈ l ∧ p = icon_path e.1 ∧ disk w' !! p = Some (icon_of img e.2)
            ∧ disk w !! p ≠ Some Dir).
Proof.
  intros Hm. induction l as [|e l IH]; intros w r w' H p.
  - left. by inversion H.
  - rewrite for_cons in H.
    destruct (generate_one img e w) as [[[]|x] w1] eqn:E.
    + destruct (generate_one_cases _ _ _ _ _ Hm E)
        as [(_ & Hload & Hp & Hk & _ & _ & ->)|(? & ? & _)]; [|done].
      apply is_dir_false_lookup in Hk as [_ Hk].
      destruct (IH _ _ _ H p) as [Hp'|(e' & Hin & -> & Hl & Hn)];
        cbn [disk] in *.
      * destruct (decide (icon_path e.1 = p)) as [<-|Hne].
        -- right. exists e. rewrite Hp', lookup_insert_eq.
           split; [apply elem_of_cons; by left|done].
        -- left. by rewrite Hp', lookup_insert_ne.
      * right. exists e'. split; [apply elem_of_cons; by right|].
        split; [done|]. split; [done|].
        destruct (decide (icon_path e.1 = icon_path e'.1)) as [Heq|Hne].
        -- by rewrite <- Heq.
        -- by rewrite lookup_insert_ne in Hn.
    + destruct (generate_one_cases _ _ _ _ _ Hm E)
        as [(? & _)|(? & _ & Hd & _)]; [done|].
      left. simplify_eq. by rewrite Hd.
Qed.

Lemma loop_frame (img : image) (l : list (string * (Z * Z))) (w : world)
    (r : res ()) (w' : world) (p : path) :
  im_mode img = M_RGBA →
  for_ l (generate_one img) w = (r, w') →
  p ∉ icon_paths l → disk w' !! p = disk w !! p.
Proof.
  intros Hm H Hp.
  destruct (loop_changes _ _ Hm _ _ _ H p) as [?|(e & Hin & -> & _)]; [done|].
  exfalso. apply Hp. unfold icon_paths. apply list_elem_of_fmap. by exists e.
Qed.

Lemma loop_is_dir (img : image) (l : list (string * (Z * Z))) (w : world)
    (r : res ()) (w' : world) (q : path) :
  im_mode img = M_RGBA →
  for_ l (generate_one img) w = (r, w') →
  is_dir (disk w') q = is_dir (disk w) q.
Proof.
  intros Hm H. destruct q as [|a q]; [done|]. unfold is_dir.
  destruct (loop_changes _ _ Hm _ _ _ H (a :: q)) as [->|(e & _ & _ & -> & Hn)];
    [done|].
  unfold icon_of. destruct (disk w !! (a :: q)) as [[|?]|]; done.
Qed.

Lemma loop_pkg_write (img : image) (l : list (string * (Z * Z))) :
  im_mode img = M_RGBA →
  ∀ (w : world) (r : res ()) (w' : world),
  for_ l (generate_one img) w = (r, w') → pkg_write w' = pkg_write w.
Proof.
  intros Hm. induction l as [|e l IH]; intros w r w' H.
  - by inversion H.
  - rewrite for_cons in H.
    destruct (generate_one img e w) as [[[]|x] w1] eqn:E.
    + destruct (generate_one_cases _ _ _ _ _ Hm E)
        as [(_ & Hload & _ & _ & _ & _ & ->)|(? & ? & _)]; [|done].
      by rewrite (IH _ _ _ H).
    + destruct (generate_one_cases _ _ _ _ _ Hm E)
        as [(? & _)|(? & _ & _ & _ & Hd & _)]; [done|]. by simplify_eq.
Qed.


(** Running the loop again on the disk it left behind repeats it exactly. *)
Lemma loop_idempotent (img : image) (l : list (string * (Z * Z))) :
  im_mode img = M_RGBA →
  NoDup (icon_paths l) →
  ∀ (w : world) (r : res ()) (w' : world),
  for_ l (generate_one img) w = (r, w') →
  for_ l (generate_one img) (World (disk w') (stdout w) (calls w) (pkg_write w))
    = (r, w').
Proof.
  intros Hm. induction l as [|e l IH]; intros Hnd w r w' H.
  - inversion H; subst. by rewrite world_eta.
  - apply NoDup_cons in Hnd as [Hnin Hnd]. rewrite for_cons in H.
    destruct (generate_one img e w) as [[[]|x] w1] eqn:E.
    + destruct (generate_one_cases _ _ _ _ _ Hm E)
        as [(_ & Hload & Hp & Hk & Hw & Hh & ->)|(? & ? & _)]; [|done].
      rewrite for_cons, generate_one_ok; try done.
      * rewrite insert_id.
        -- apply (IH Hnd _ _ _ H).
        -- erewrite loop_frame; [|done|exact H|done].
           cbn [disk]. by rewrite lookup_insert_eq.
      * erewrite loop_is_dir; [|done|exact H]. cbn [disk].
        unfold icon_of. by rewrite is_dir_insert_file.
      * erewrite loop_is_dir; [|done|exact H]. cbn [disk].
        unfold icon_of. by rewrite is_dir_insert_file.
    + destruct (generate_one_cases _ _ _ _ _ Hm E)
        as [(? & _)|(? & _ & Hd & _)]; [done|].
      simplify_eq. rewrite Hd, world_eta, for_cons, E. done.
Qed.

(** ** The shape of a run of [generate_icons] *)

Lemma run_icons_missing (d : gmap path node) :
  d !! components android_icon_path = None →
  run_icons d =
    (Ok (), World d ["❌ 错误: 找不到 Android 图标: " +:+ android_icon_path]
                  [Call_exists android_icon_path] (Ok ())).
Proof.
  intros H. unfold run_icons, generate_icons, os_path_exists, boot.
  unfold mbind, M_bind, log, get_disk, mret, M_ret.
  cbn [disk stdout calls pkg_write]. rewrite H.
  rewrite bool_decide_eq_false_2 by (intros [? ?]; done).
  reflexivity.
Qed.

Lemma run_icons_blocked (d : gmap path node) (n : node) (e : exn) :
  d !! components android_icon_path = Some n →
  mkdirs ios_appicon_dir [] (components ios_appicon_dir) d = Raise e →
  run_icons d =
    (Raise e, World d [] [Call_exists android_icon_path;
                          Call_makedirs ios_appicon_dir] (Ok ())).
Proof.
  intros H Hmk. unfold run_icons, generate_icons, os_path_exists, os_makedirs, boot.
  unfold mbind, M_bind, log, get_disk, mret, M_ret, lift.
  cbn [disk stdout calls pkg_write]. rewrite H.
  rewrite bool_decide_eq_true_2 by eauto.
  cbn [negb disk stdout calls pkg_write]. rewrite Hmk. reflexivity.
Qed.

(** Past [os.makedirs], a source that Pillow cannot open ends the run in the
    [except] branch. *)
Lemma run_icons_unreadable (d d1 : gmap path node) (n : node) :
  d !! components android_icon_path = Some n →
  (∀ fmt im, n ≠ File (Raster fmt im)) →
  mkdirs ios_appicon_dir [] (components ios_appicon_dir) d = Ok d1 →
  run_icons d =
    (Ok (), World d1 (prelude_lines ++ ["❌ 错误: " +:+ str_exn (open_error n)])
                  prelude_calls (Ok ())).
Proof.
  intros H Hn Hmk.
  assert (d1 !! components android_icon_path = Some n) as H1.
  { rewrite <- H. eapply mkdirs_frame; [done|]. exact source_not_dir. }
  unfold run_icons, generate_icons, generate_all, os_path_exists, os_makedirs,
    Image_open, boot.
  unfold mbind, M_bind, log, get_disk, put_disk, mret, M_ret, lift, try_, print, raise.
  cbn [disk stdout calls pkg_write]. rewrite H.
  rewrite bool_decide_eq_true_2 by eauto.
  cbn [negb disk stdout calls pkg_write]. rewrite Hmk.
  cbn [disk stdout calls pkg_write]. rewrite H1.
  unfold prelude_lines, prelude_calls.
  destruct n as [|[fmt im| | |]]; try reflexivity.
  by destruct (Hn fmt im).
Qed.

(** Past [os.makedirs], with a source that opens and whose pixel data can be
    read when [convert] asks for it, the run is the loop over the table
    followed by one of the two endings. *)
Lemma run_icons_loop (d d1 : gmap path node) (im : image) :
  source_image d im →
  im_mode im = M_RGBA ∨ im_load im = Ok () →
  mkdirs ios_appicon_dir [] (components ios_appicon_dir) d = Ok d1 →
  run_icons d =
    match for_ ios_icon_sizes (generate_one (working_image im))
            (World d1
               (prelude_lines ++ ["源图标尺寸: " +:+ show_size (im_size (working_image im))])
               (prelude_calls ++ convert_calls im) (Ok ())) with
    | (Ok _, w) =>
        (Ok (), World (disk w) (stdout w ++ epilogue_lines) (calls w) (pkg_write w))
    | (Raise e, w) =>
        (Ok (), World (disk w) (stdout w ++ ["❌ 错误: " +:+ str_exn e]) (calls w)
                  (pkg_write w))
    end.
Proof.
  intros [fmt H] Hc Hmk.
  assert (d1 !! components android_icon_path = Some (File (Raster fmt im))) as H1.
  { rewrite <- H. eapply mkdirs_frame; [done|]. exact source_not_dir. }
  unfold run_icons, generate_icons, generate_all, os_path_exists, os_makedirs,
    Image_open, Image_convert, boot, working_image, convert_calls.
  unfold mbind, M_bind, log, get_disk, put_disk, mret, M_ret, lift, try_, print, raise.
  cbn [disk stdout calls pkg_write]. rewrite H.
  rewrite bool_decide_eq_true_2 by eauto.
  cbn [negb disk stdout calls pkg_write]. rewrite Hmk.
  cbn [disk stdout calls pkg_write]. rewrite H1.
  unfold prelude_lines, prelude_calls, epilogue_lines.
  case_bool_decide; cbn [disk stdout calls pkg_write app];
    [destruct Hc as [?|Hl]; [done|]; rewrite Hl; cbn [disk stdout calls pkg_write app]|];
    match goal with |- context [for_ ?l ?b ?w] => destruct (for_ l b w) as [[[]|?] ?] end;
    cbn [disk stdout calls pkg_write]; rewrite <- ?app_assoc; reflexivity.
Qed.

(** Past [os.makedirs], a source that opens in another mode than RGBA and
    whose pixel data cannot be read fails in [convert]: the run ends in the
    [except] branch before the size line. *)
Lemma run_icons_undecodable (d d1 : gmap path node) (im : image) (x : exn) :
  source_image d im →
  im_mode im ≠ M_RGBA →
  im_load im = Raise x →
  mkdirs ios_appicon_dir [] (components ios_appicon_dir) d = Ok d1 →
  run_icons d =
    (Ok (), World d1 (prelude_lines ++ ["❌ 错误: " +:+ str_exn x])
                  (prelude_calls ++ [Call_convert M_RGBA]) (Ok ())).
Proof.
  intros [fmt H] Hm Hl Hmk.
  assert (d1 !! components android_icon_path = Some (File (Raster fmt im))) as H1.
  { rewrite <- H. eapply mkdirs_frame; [done|]. exact source_not_dir. }
  unfold run_icons, generate_icons, generate_all, os_path_exists, os_makedirs,
    Image_open, Image_convert, boot.
  unfold mbind, M_bind, log, get_disk, put_disk, mret, M_ret, lift, try_, print, raise.
  cbn [disk stdout calls pkg_write]. rewrite H.
  rewrite bool_decide_eq_true_2 by eauto.
  cbn [negb disk stdout calls pkg_write]. rewrite Hmk.
  cbn [disk stdout calls pkg_write]. rewrite H1.
  unfold prelude_lines, prelude_calls.
  rewrite bool_decide_eq_true_2 by done.
  cbn [disk stdout calls pkg_write app]. rewrite Hl. reflexivity.
Qed.

Lemma load_cases_image (im : image) :
  (im_mode im = M_RGBA ∨ im_load im = Ok ())
  ∨ (∃ x, im_mode im ≠ M_RGBA ∧ im_load im = Raise x).
Proof.
  destruct (decide (im_mode im = M_RGBA)) as [Hm|Hm]; [by auto|].
  destruct (im_load im) as [[]|x] eqn:El; [by auto|by eauto].
Qed.

(** The five ways a run can go. *)
Lemma run_icons_cases (d : gmap path node) :
  (d !! components android_icon_path = None)
  ∨ (∃ n e, d !! components android_icon_path = Some n
            ∧ mkdirs ios_appicon_dir [] (components ios_appicon_dir) d = Raise e)
  ∨ (∃ n d1, d !! components android_icon_path = Some n
             ∧ (∀ fmt im, n ≠ File (Raster fmt im))
             ∧ mkdirs ios_appicon_dir [] (components ios_appicon_dir) d = Ok d1)
  ∨ (∃ im d1 x, source_image d im
                ∧ im_mode im ≠ M_RGBA ∧ im_load im = Raise x
                ∧ mkdirs ios_appicon_dir [] (components ios_appicon_dir) d = Ok d1)
  ∨ (∃ im d1, source_image d im
              ∧ (im_mode im = M_RGBA ∨ im_load im = Ok ())
              ∧ mkdirs ios_appicon_dir [] (components ios_appicon_dir) d = Ok d1).
Proof.
  destruct (d !! components android_icon_path) as [n|] eqn:E; [|by left].
  right.
  destruct (mkdirs ios_appicon_dir [] (components ios_appicon_dir) d) as [d1|e] eqn:Hmk;
    [|left; by eauto].
  right. destruct n as [|[fmt im| | |]].
  - left. exists Dir, d1. by eauto.
  - right. destruct (decide (im_mode im = M_RGBA)) as [Hm|Hm].
    + right. exists im, d1. split; [by exists fmt|by auto].
    + destruct (im_load im) as [[]|x] eqn:El.
      * right. exists im, d1. split; [by exists fmt|by auto].
      * left. exists im, d1, x. split; [by exists fmt|done].
  - left. eexists _, d1. by eauto.
  - left. eexists _, d1. by eauto.
  - left. eexists _, d1. by eauto.
Qed.

(** The loop calls nothing but [resize] and [save]. *)
Lemma loop_calls (img : image) (l : list (string * (Z * Z))) :
  im_mode img = M_RGBA →
  ∀ (w : world) (r : res ()) (w' : world),
  for_ l (generate_one img) w = (r, w') →
  ∃ cs, calls w' = calls w ++ cs
        ∧ Forall (λ c, ∃ e, e ∈ l ∧ c ∈ icon_calls e) cs.
Proof.
  intros Hm. induction l as [|e l IH]; intros w r w' H.
  - inversion H; subst. exists []. by rewrite app_nil_r.
  - rewrite for_cons in H.
    destruct (generate_one img e w) as [[[]|x] w1] eqn:E.
    + destruct (generate_one_cases _ _ _ _ _ Hm E)
        as [(_ & Hload & _ & _ & _ & _ & ->)|(? & ? & _)]; [|done].
      destruct (IH _ _ _ H) as (cs & -> & Hcs). cbn [calls].
      exists (icon_calls e ++ cs). split; [by rewrite app_assoc|].
      apply Forall_app. split.
      * apply Forall_forall. intros c Hc. exists e. split; [|done].
        apply elem_of_cons. by left.
      * eapply Forall_impl; [exact Hcs|]. intros c (e' & ? & ?).
        exists e'. split; [|done]. apply elem_of_cons. by right.
    + destruct (generate_one_cases _ _ _ _ _ Hm E)
        as [(? & _)|(? & _ & _ & _ & _ & Hc)]; [done|].
      simplify_eq.
      assert (e ∈ e :: l) by (apply elem_of_cons; by left).
      destruct Hc as [->| ->]; eexists; (split; [done|]).
      * apply Forall_singleton. exists e. split; [done|].
        apply elem_of_cons. by left.
      * apply Forall_forall. intros c Hc. by exists e.
Qed.

Lemma mkdirs_succeeds (name : string) (rest : path) :
  ∀ (pre : path) (d : gmap path node),
  Forall (λ p, ∀ c, d !! p ≠ Some (File c)) (prefixes pre rest) →
  ∃ d', mkdirs name pre rest d = Ok d'.
Proof.
  induction rest as [|c rest IH]; intros pre d H; simpl in *; [by eauto|].
  apply Forall_cons in H as [H1 H2].
  destruct (d !! (pre ++ [c])) as [[|f]|] eqn:E.
  - by apply IH.
  - by destruct (H1 f).
  - apply IH. eapply Forall_impl; [exact H2|]. intros p Hp f.
    destruct (decide (pre ++ [c] = p)) as [<-|Hne].
    + by rewrite lookup_insert_eq.
    + rewrite lookup_insert_ne by done. apply Hp.
Qed.

Lemma mkdirs_blocked (name : string) (rest : path) :
  ∀ (pre : path) (d : gmap path node) (p : path) (c : content),
  p ∈ prefixes pre rest → d !! p = Some (File c) →
  ∃ e, mkdirs name pre rest d = Raise e
       ∧ (exn_type e = "FileExistsError" ∨ exn_type e = "NotADirectoryError").
Proof.
  induction rest as [|c0 rest IH]; intros pre d p c Hp Hf; simpl in *.
  - by apply elem_of_nil in Hp.
  - apply elem_of_cons in Hp as [->|Hp].
    + rewrite Hf. destruct rest; eexists; (split; [reflexivity|]); by eauto.
    + destruct (d !! (pre ++ [c0])) as [[|f]|] eqn:E.
      * by eapply IH.
      * destruct rest; eexists; (split; [reflexivity|]); by eauto.
      * eapply IH; [done|]. rewrite lookup_insert_ne; [done|]. congruence.
Qed.

(** Every node a run changes is either a directory of the destination path
    created where nothing was, or a table path that now holds its icon. *)
Lemma run_icons_changes (d : gmap path node) (p : path) :
  disk (run_icons d).2 !! p = d !! p
  ∨ (p ∈ appicon_dirs ∧ d !! p = None ∧ disk (run_icons d).2 !! p = Some Dir)
  ∨ (∃ e im, e ∈ ios_icon_sizes ∧ source_image d im ∧ p = icon_path e.1
             ∧ disk (run_icons d).2 !! p = Some (icon_of (working_image im) e.2)).
Proof.
  destruct (run_icons_cases d)
    as [H|[(n & e & H & Hmk)|[(n & d1 & H & Hn & Hmk)
        |[(im & d1 & x & H & Hnm & Hnl & Hmk)|(im & d1 & H & Hc & Hmk)]]]].
  - rewrite run_icons_missing by done. by left.
  - erewrite run_icons_blocked by done. by left.
  - erewrite run_icons_unreadable by done. cbn [snd disk].
    destruct (mkdirs_changes _ _ _ _ _ Hmk p) as [?|?]; [by left|by right; left].
  - erewrite run_icons_undecodable by done. cbn [snd disk].
    destruct (mkdirs_changes _ _ _ _ _ Hmk p) as [?|?]; [by left|by right; left].
  - erewrite run_icons_loop by done.
    destruct (for_ _ _ _) as [r w] eqn:E.
    assert (disk w !! p = d1 !! p
            ∨ (∃ e, e ∈ ios_icon_sizes ∧ p = icon_path e.1
                    ∧ disk w !! p = Some (icon_of (working_image im) e.2)
                    ∧ d1 !! p ≠ Some Dir)) as Hl
      by exact (loop_changes _ _ (working_image_mode im) _ _ _ E p).
    assert (disk (match r with
                  | Ok _ => (Ok (), World (disk w) (stdout w ++ epilogue_lines)
                                      (calls w) (pkg_write w))
                  | Raise e => (Ok (), World (disk w)
                                         (stdout w ++ ["❌ 错误: " +:+ str_exn e])
                                         (calls w) (pkg_write w))
                  end).2 = disk w) as -> by (by destruct r as [[]|]).
    destruct Hl as [->|(e & ? & ? & ? & _)].
    + destruct (mkdirs_changes _ _ _ _ _ Hmk p) as [?|?]; [by left|by right; left].
    + right; right. by exists e, im.
Qed.

(** ** The icon generator: claims *)

(** C5.  When the source image path does not exist, the run prints its
    diagnostic and returns: the existence test is its only library call (no
    directory is created, nothing is opened, resized or saved), and the disk
    is left exactly as it was, so nothing is written into the output
    directory. *)
Theorem missing_source_aborts (d : gmap path node) :
  d !! components android_icon_path = None →
  ∃ w, run_icons d = (Ok (), w)
       ∧ stdout w = ["❌ 错误: 找不到 Android 图标: " +:+ android_icon_path]
       ∧ calls w = [Call_exists android_icon_path]
       ∧ disk w = d.
Proof.
  intros H. eexists. rewrite run_icons_missing by done. by repeat split.
Qed.

Lemma missing_source_aborts_witness :
  (∅ : gmap path node) !! components android_icon_path = None
  ∧ ∃ w, run_icons ∅ = (Ok (), w)
         ∧ stdout w = ["❌ 错误: 找不到 Android 图标: " +:+ android_icon_path]
         ∧ calls w = [Call_exists android_icon_path]
         ∧ disk w = ∅.
Proof.
  split; [reflexivity|]. apply (missing_source_aborts ∅). reflexivity.
Defined.

(** C10.  The size table has 22 entries, each with width equal to height,
    and every image file a run leaves on disk that was not there before is
    square. *)
Theorem icons_are_square :
  length ios_icon_sizes = 22%nat
  ∧ Forall (λ e : string * (Z * Z), e.2.1 = e.2.2) ios_icon_sizes
  ∧ ∀ (d : gmap path node) (p : path) fmt im,
      disk (run_icons d).2 !! p = Some (File (Raster fmt im)) →
      disk (run_icons d).2 !! p ≠ d !! p →
      ∃ n, im_size im = (n, n).
Proof.
  assert (Forall (λ e : string * (Z * Z), e.2.1 = e.2.2) ios_icon_sizes) as Hsq.
  { apply (bool_decide_unpack _). by vm_compute. }
  split; [reflexivity|]. split; [exact Hsq|].
  intros d p fmt im Hf Hne.
  destruct (run_icons_changes d p) as [?|[(_ & _ & Hd)|(e & im' & He & _ & _ & Hi)]].
  - done.
  - congruence.
  - rewrite Hf in Hi. unfold icon_of in Hi. simplify_eq.
    exists e.2.2. cbn [im_size]. f_equal.
    by apply (proj1 (Forall_forall _ _) Hsq).
Qed.

(** C6.  Running the generator again on the disk the first run left behind
    gives the very same outcome: the same disk (so the same output files
    with the same decoded sizes), the same calls (so the same saves, to the
    same paths, in the same order) and the same printed lines. *)
Theorem rerun_is_idempotent (d : gmap path node) :
  let first := run_icons d in
  let second := run_icons (disk first.2) in
  second = first
  ∧ disk second.2 = disk first.2
  ∧ filter is_save (calls second.2) = filter is_save (calls first.2).
Proof.
  cbn zeta.
  assert (run_icons (disk (run_icons d).2) = run_icons d) as ->; [|done].
  destruct (run_icons_cases d)
    as [H|[(n & e & H & Hmk)|[(n & d1 & H & Hn & Hmk)
        |[(im & d1 & x & H & Hnm & Hnl & Hmk)|(im & d1 & H & Hc & Hmk)]]]].
  - rewrite (run_icons_missing d H). cbn [snd disk]. by rewrite run_icons_missing.
  - rewrite (run_icons_blocked d n e H Hmk). cbn [snd disk].
    by erewrite run_icons_blocked.
  - rewrite (run_icons_unreadable d d1 n H Hn Hmk). cbn [snd disk].
    apply run_icons_unreadable; [|done|by eapply mkdirs_idempotent].
    rewrite <- H. eapply mkdirs_frame; [done|]. exact source_not_dir.
  - rewrite (run_icons_undecodable d d1 im x H Hnm Hnl Hmk). cbn [snd disk].
    apply (run_icons_undecodable _ _ im); [|done|done|by eapply mkdirs_idempotent].
    destruct H as [fmt H]. exists fmt.
    rewrite <- H. eapply mkdirs_frame; [done|]. exact source_not_dir.
  - rewrite (run_icons_loop d d1 im H Hc Hmk).
    destruct (for_ _ _ _) as [r w] eqn:E.
    pose proof (working_image_mode im) as Hm.
    assert (source_image (disk w) im) as Hsrc.
    { destruct H as [fmt H]. exists fmt.
      erewrite loop_frame; [|done|exact E|exact source_not_icon].
      cbn [disk]. rewrite <- H. eapply mkdirs_frame; [done|]. exact source_not_dir. }
    assert (mkdirs ios_appicon_dir [] (components ios_appicon_dir) (disk w)
            = Ok (disk w)) as Hmk'.
    { apply mkdirs_present. apply Forall_forall. intros p Hp.
      destruct (loop_changes _ _ Hm _ _ _ E p) as [->|(_ & _ & _ & _ & Hnd)];
        cbn [disk] in *.
      - by apply (proj1 (Forall_forall _ _) (mkdirs_creates _ _ _ _ _ Hmk)).
      - destruct Hnd.
        by apply (proj1 (Forall_forall _ _) (mkdirs_creates _ _ _ _ _ Hmk)). }
    pose proof (loop_idempotent _ _ Hm icon_paths_NoDup _ _ _ E) as E'.
    cbn [disk stdout calls pkg_write] in E'.
    assert (disk (match r with
                  | Ok _ => (Ok (), World (disk w) (stdout w ++ epilogue_lines)
                                      (calls w) (pkg_write w))
                  | Raise e => (Ok (), World (disk w)
                                         (stdout w ++ ["❌ 错误: " +:+ str_exn e])
                                         (calls w) (pkg_write w))
                  end).2 = disk w) as -> by (by destruct r as [[]|]).
    rewrite (run_icons_loop (disk w) (disk w) im Hsrc Hc Hmk'). by rewrite E'.
Qed.

Lemma filter_icon_calls (P : call → bool) (l : list (string * (Z * Z)))
    (cs : list call) :
  (∀ w h f, P (Call_resize w h f) = false) →
  (∀ p fmt, P (Call_save p fmt) = false) →
  Forall (λ c, ∃ e, e ∈ l ∧ c ∈ icon_calls e) cs →
  filter P cs = [].
Proof.
  intros Hr Hs. induction 1 as [|c cs (e & _ & Hc) _ IH]; [done|].
  rewrite filter_cons, IH. unfold icon_calls in Hc.
  apply elem_of_cons in Hc as [->|Hc].
  - rewrite Hr. done.
  - apply list_elem_of_singleton in Hc as ->. rewrite Hs. done.
Qed.

Lemma filter_convert_calls (P : call → bool) (im : image) :
  P (Call_convert M_RGBA) = false → filter P (convert_calls im) = [].
Proof.
  intros H. unfold convert_calls. case_bool_decide; [|done].
  rewrite filter_cons, H. done.
Qed.

(** What a run with an openable source and a creatable destination
    directory calls, whatever the loop meets. *)
Lemma run_icons_calls (d : gmap path node) (im : image) :
  source_image d im →
  Forall (λ p, ∀ c, d !! p ≠ Some (File c)) appicon_dirs →
  ∃ cs, calls (run_icons d).2 = (prelude_calls ++ convert_calls im) ++ cs
        ∧ Forall (λ c, ∃ e, e ∈ ios_icon_sizes ∧ c ∈ icon_calls e) cs.
Proof.
  intros H Hdirs. destruct (mkdirs_succeeds ios_appicon_dir _ _ _ Hdirs) as [d1 Hmk].
  destruct (load_cases_image im) as [Hl|(x & Hnm & Hnl)].
  - rewrite (run_icons_loop d d1 im H Hl Hmk).
    destruct (for_ _ _ _) as [r w] eqn:E.
    destruct (loop_calls _ _ (working_image_mode im) _ _ _ E) as (cs & Hc & Hcs).
    cbn [calls] in Hc.
    exists cs. split; [|done]. destruct r as [[]|]; cbn [snd calls]; exact Hc.
  - rewrite (run_icons_undecodable d d1 im x H Hnm Hnl Hmk). cbn [snd calls].
    exists []. split; [|done]. unfold convert_calls.
    rewrite bool_decide_eq_true_2 by done. by rewrite app_nil_r.
Qed.


Lemma no_file_at_Forall (d : gmap path node) (l : list path) :
  Forall (λ p, no_file_at d p = true) l →
  Forall (λ p, ∀ c, d !! p ≠ Some (File c)) l.
Proof.
  intros H. eapply Forall_impl; [exact H|].
  intros p Hp c Hc. unfold no_file_at in Hp. rewrite Hc in Hp. discriminate.
Qed.






(** C7, as amended.  A run that gets past [os.makedirs] opens the source
    image exactly once and converts it, to RGBA, if and only if its mode is
    not RGBA already: an RGBA source is used as it is, any other source is
    converted, alpha band or not.  Every file the run writes is a resize of
    that one RGBA image. *)
Theorem converts_unless_rgba (d : gmap path node) (im : image) :
  source_image d im →
  Forall (λ p, ∀ c, d !! p ≠ Some (File c)) appicon_dirs →
  filter is_open (calls (run_icons d).2) = [Call_open android_icon_path]
  ∧ filter is_convert (calls (run_icons d).2)
    = (if bool_decide (im_mode im = M_RGBA) then [] else [Call_convert M_RGBA])
  ∧ (Call_convert M_RGBA ∈ calls (run_icons d).2 ↔ im_mode im ≠ M_RGBA)
  ∧ (im_mode im = M_RGBA → working_image im = im)
  ∧ im_mode (working_image im) = M_RGBA
  ∧ ∀ p c, disk (run_icons d).2 !! p = Some (File c) →
           disk (run_icons d).2 !! p ≠ d !! p →
           ∃ e, e ∈ ios_icon_sizes ∧ p = icon_path e.1
                ∧ File c = icon_of (working_image im) e.2.
Proof.
  intros H Hdirs.
  destruct (run_icons_calls d im H Hdirs) as (cs & -> & Hcs).
  assert (filter is_convert (convert_calls im)
          = if bool_decide (im_mode im = M_RGBA) then [] else [Call_convert M_RGBA])
    as Hconv.
  { unfold convert_calls. repeat case_bool_decide; done. }
  split; [|split; [|split; [|split; [|split]]]].
  - rewrite !filter_app, filter_convert_calls by done.
    rewrite (filter_icon_calls is_open ios_icon_sizes cs (λ _ _ _, eq_refl)
               (λ _ _, eq_refl) Hcs).
    reflexivity.
  - rewrite !filter_app, Hconv.
    rewrite (filter_icon_calls is_convert ios_icon_sizes cs (λ _ _ _, eq_refl)
               (λ _ _, eq_refl) Hcs).
    by rewrite app_nil_r.
  - rewrite !elem_of_app. split.
    + intros [[Hin|Hin]|Hin].
      * exfalso. unfold prelude_calls in Hin.
        repeat (apply elem_of_cons in Hin as [Hin|Hin]; [discriminate|]).
        by apply elem_of_nil in Hin.
      * unfold convert_calls in Hin. case_bool_decide; [done|].
        by apply elem_of_nil in Hin.
      * exfalso. apply (proj1 (Forall_forall _ _) Hcs) in Hin as (e & _ & Hin).
        unfold icon_calls in Hin.
        repeat (apply elem_of_cons in Hin as [Hin|Hin]; [discriminate|]).
        by apply elem_of_nil in Hin.
    + intros Hne. left; right. unfold convert_calls.
      rewrite bool_decide_eq_true_2 by done. apply elem_of_cons. by left.
  - intros Hm. unfold working_image. by rewrite bool_decide_eq_false_2 by naive_solver.
  - apply working_image_mode.
  - intros p c Hf Hne.
    destruct (run_icons_changes d p)
      as [?|[(_ & _ & Hd)|(e & im' & He & [fmt' H'] & Hp & Hi)]].
    + done.
    + congruence.
    + destruct H as [fmt H]. assert (im' = im) as -> by congruence.
      exists e. split; [done|]. split; [done|]. rewrite Hf in Hi. congruence.
Qed.

Lemma converts_unless_rgba_witness :
  source_image (disk_with rgb_source) rgb_source
  ∧ Forall (λ p, ∀ c, disk_with rgb_source !! p ≠ Some (File c)) appicon_dirs
  ∧ filter is_open (calls (run_icons (disk_with rgb_source)).2)
    = [Call_open android_icon_path]
  ∧ filter is_convert (calls (run_icons (disk_with rgb_source)).2)
    = (if bool_decide (im_mode rgb_source = M_RGBA) then [] else [Call_convert M_RGBA])
  ∧ (Call_convert M_RGBA ∈ calls (run_icons (disk_with rgb_source)).2
     ↔ im_mode rgb_source ≠ M_RGBA)
  ∧ (im_mode rgb_source = M_RGBA → working_image rgb_source = rgb_source)
  ∧ im_mode (working_image rgb_source) = M_RGBA
  ∧ ∀ p c, disk (run_icons (disk_with rgb_source)).2 !! p = Some (File c) →
           disk (run_icons (disk_with rgb_source)).2 !! p ≠ disk_with rgb_source !! p →
           ∃ e, e ∈ ios_icon_sizes ∧ p = icon_path e.1
                ∧ File c = icon_of (working_image rgb_source) e.2.
Proof.
  assert (source_image (disk_with rgb_source) rgb_source) as H1
    by (exists "WEBP"; reflexivity).
  assert (Forall (λ p, ∀ c, disk_with rgb_source !! p ≠ Some (File c)) appicon_dirs)
    as H2
    by (apply no_file_at_Forall; apply (bool_decide_unpack _); vm_compute; exact I).
  split; [exact H1|]. split; [exact H2|].
  exact (converts_unless_rgba _ _ H1 H2).
Defined.

(** C7, as stated, fails: the source image on [disk_with la_source] has an
    alpha band (mode LA), and the run converts it all the same. *)
Lemma alpha_source_converted :
  source_image (disk_with la_source) la_source
  ∧ has_alpha (im_mode la_source) = true
  ∧ filter is_convert (calls (run_icons (disk_with la_source)).2)
    = [Call_convert M_RGBA]
  ∧ ¬ (Call_convert M_RGBA ∈ calls (run_icons (disk_with la_source)).2
       ↔ has_alpha (im_mode la_source) = false).
Proof.
  split; [by exists "WEBP"|]. split; [done|]. split; [by vm_compute|].
  intros [Hc _]. assert (has_alpha (im_mode la_source) = false) as Hf; [|done].
  apply Hc. apply (bool_decide_unpack _). by vm_compute.
Qed.

(** ** The shape of a run of [convert_model] *)

Lemma torch_jit_load_fails (d : gmap path node) (s : list string) (c : list call)
    (pw : res ()) :
  fails_to_load d →
  torch_jit_load model_path (World d s c pw)
  = (Raise (load_error d), World d s (c ++ [Call_jit_load model_path]) pw).
Proof.
  intros H. unfold torch_jit_load, load_error, fails_to_load, loads in *.
  unfold mbind, M_bind, log, get_disk, mret, M_ret, raise.
  cbn [disk stdout calls pkg_write].
  destruct (d !! components model_path) as [[|[| | |]]|]; try reflexivity.
  by destruct (H m).
Qed.

Lemma torch_jit_load_ok (d : gmap path node) (m : script_module) (s : list string)
    (c : list call) (pw : res ()) :
  loads d m →
  torch_jit_load model_path (World d s c pw)
  = (Ok m, World d s (c ++ [Call_jit_load model_path]) pw).
Proof.
  intros H. unfold torch_jit_load, loads in *.
  unfold mbind, M_bind, log, get_disk, mret, M_ret, raise.
  cbn [disk stdout calls pkg_write]. by rewrite H.
Qed.

Ltac run_script :=
  repeat progress
    (unfold mbind, M_bind, log, get_disk, put_disk, mret, M_ret, raise, try_,
       print, lift;
     cbn [disk stdout calls pkg_write fst snd for_]).

Ltac tidy_lists := rewrite <- ?app_assoc; cbn [app].

Lemma convert_model_load_fails (d : gmap path node) (s : list string)
    (c : list call) (pw : res ()) :
  fails_to_load d →
  convert_model (World d s c pw)
  = (Ok (), World d (s ++ start_line :: load_diagnostic (load_error d))
                  (c ++ [Call_jit_load model_path]) pw).
Proof.
  intros H. unfold convert_model.
  unfold mbind at 1, M_bind at 1, print at 1. cbn [disk stdout calls pkg_write].
  unfold mbind at 1, M_bind at 1, try_ at 1.
  unfold mbind at 1, M_bind at 1. rewrite torch_jit_load_fails by done.
  unfold load_diagnostic, start_line. run_script. tidy_lists. reflexivity.
Qed.

(** ** What a package save does to the disk *)

Lemma prefixes_prefix (rest : path) : ∀ (pre q : path),
  q ∈ prefixes pre rest →
  q `prefix_of` pre ++ rest ∧ (length pre < length q)%nat.
Proof.
  induction rest as [|c rest IH]; intros pre q H; simpl in H.
  - by apply elem_of_nil in H.
  - apply elem_of_cons in H as [->|H].
    + split; [exists rest; by rewrite <- app_assoc|].
      rewrite length_app. simpl. lia.
    + destruct (IH _ _ H) as [H1 H2]. rewrite <- app_assoc in H1.
      split; [done|]. rewrite length_app in H2. simpl in H2. lia.
Qed.

Lemma prefixes_snoc (rest : path) (c : string) : ∀ pre : path,
  prefixes pre (rest ++ [c]) = prefixes pre rest ++ [pre ++ rest ++ [c]].
Proof.
  induction rest as [|c0 rest IH]; intros pre; simpl; [done|].
  by rewrite IH, <- app_assoc.
Qed.

Lemma prefixes_parent (k : path) :
  k ≠ [] → prefixes [] k = prefixes [] (parent k) ++ [k].
Proof.
  intros Hk. destruct (exists_last Hk) as (k' & c & ->).
  unfold parent. rewrite removelast_last. by rewrite prefixes_snoc.
Qed.

(** A directory above [k] is neither [k] nor below it. *)
Lemma above_not_below (k q : path) :
  q ∈ prefixes [] (parent k) → ¬ k `prefix_of` q.
Proof.
  intros Hq [r Hr]. apply prefixes_prefix in Hq as [[r' Hq] Hlen].
  simpl in *. apply (f_equal length) in Hq, Hr. rewrite !length_app in *.
  destruct k as [|c k] using rev_ind; [simpl in *; lia|].
  unfold parent in Hq. rewrite removelast_last in Hq.
  rewrite length_app in Hr. simpl in Hr. lia.
Qed.

Lemma remove_tree_lookup (k : path) (d : gmap path node) (q : path) :
  remove_tree k d !! q = if bool_decide (k `prefix_of` q) then None else d !! q.
Proof.
  unfold remove_tree. case_bool_decide as Hq.
  - apply map_lookup_filter_None. right. intros x _ Hn. by apply Hn.
  - destruct (d !! q) as [x|] eqn:E.
    + by apply map_lookup_filter_Some.
    + apply map_lookup_filter_None. by left.
Qed.

Lemma mkdirs_lookup (name : string) (pre rest : path) (d d' : gmap path node)
    (q : path) :
  mkdirs name pre rest d = Ok d' →
  d' !! q = if bool_decide (q ∈ prefixes pre rest) then Some Dir else d !! q.
Proof.
  intros H. case_bool_decide as Hq.
  - by apply (proj1 (Forall_forall _ _) (mkdirs_creates _ _ _ _ _ H)).
  - by eapply mkdirs_frame.
Qed.

(** The disk a successful save leaves, node by node. *)
Lemma save_package_lookup (p : string) (m : mlmodel) (d d' : gmap path node)
    (q : path) :
  save_package p m d = Ok d' →
  d' !! q = if bool_decide (q = components p) then Some (File (MLPackage m))
            else if bool_decide (q ∈ prefixes [] (components p)) then Some Dir
            else if bool_decide (components p `prefix_of` q) then None
            else d !! q.
Proof.
  unfold save_package. destruct (regular_file _); [done|].
  destruct (mkdirs _ _ _ _) as [d0|e] eqn:E; [|done]. intros; simplify_eq.
  case_bool_decide as Hq; [subst; by rewrite lookup_insert_eq|].
  rewrite lookup_insert_ne by done.
  rewrite (mkdirs_lookup _ _ _ _ _ q E). case_bool_decide; [done|].
  apply remove_tree_lookup.
Qed.

(** The outcome of [os.makedirs] depends on the disk only through where the
    regular files are on its way. *)
Lemma mkdirs_raise_agree (name : string) (rest : path) :
  ∀ (pre : path) (d1 d2 : gmap path node) (e : exn),
  (∀ q, q ∈ prefixes pre rest → blocker (d1 !! q) = blocker (d2 !! q)) →
  mkdirs name pre rest d1 = Raise e → mkdirs name pre rest d2 = Raise e.
Proof.
  induction rest as [|c rest IH]; intros pre d1 d2 e H; simpl in *; [done|].
  pose proof (H (pre ++ [c]) ltac:(apply elem_of_cons; by left)) as Hc.
  assert (∀ q, q ∈ prefixes (pre ++ [c]) rest → q ≠ pre ++ [c]) as Hne.
  { intros q Hq ->. apply prefixes_prefix in Hq as [_ Hq]. lia. }
  destruct (d1 !! (pre ++ [c])) as [[|f1]|] eqn:E1;
    destruct (d2 !! (pre ++ [c])) as [[|f2]|] eqn:E2; try discriminate Hc;
    try done; apply IH; intros q Hq;
    rewrite ?lookup_insert_ne by (intros Heq; by apply (Hne q Hq)); 
    apply H, elem_of_cons; by right.
Qed.

Lemma mkdirs_ok_agree (name : string) (pre rest : path) (d1 d2 d1' : gmap path node) :
  (∀ q, q ∈ prefixes pre rest → blocker (d1 !! q) = blocker (d2 !! q)) →
  mkdirs name pre rest d1 = Ok d1' → ∃ d2', mkdirs name pre rest d2 = Ok d2'.
Proof.
  intros H H1. destruct (mkdirs name pre rest d2) as [d2'|e] eqn:E; [by eauto|].
  rewrite (mkdirs_raise_agree name rest pre d2 d1 e) in H1; [done| |done].
  intros q Hq. symmetry. by apply H.
Qed.

(** The outcome of a package save depends on the disk only through the node
    at the path and through where the regular files are above it. *)
Lemma save_package_agree (p : string) (m : mlmodel) (d1 d2 : gmap path node) :
  regular_file (d1 !! components p) = regular_file (d2 !! components p) →
  (∀ q, q ∈ prefixes [] (parent (components p)) →
     blocker (d1 !! q) = blocker (d2 !! q)) →
  match save_package p m d1, save_package p m d2 with
  | Ok _, Ok _ => True
  | Raise e1, Raise e2 => e1 = e2
  | _, _ => False
  end.
Proof.
  intros Hk Hq. unfold save_package. rewrite <- Hk.
  destruct (regular_file (d1 !! components p)); [done|].
  assert (∀ q, q ∈ prefixes [] (components p) →
            blocker (remove_tree (components p) d1 !! q)
            = blocker (remove_tree (components p) d2 !! q)) as H.
  { intros q Hin. rewrite !remove_tree_lookup. case_bool_decide as Hb; [done|].
    apply Hq. destruct (decide (components p = [])) as [Hn|Hn].
    - rewrite Hn in Hin. by apply elem_of_nil in Hin.
    - rewrite (prefixes_parent _ Hn) in Hin. apply elem_of_app in Hin as [?|Hin]; [done|].
      apply list_elem_of_singleton in Hin. by subst. }
  destruct (mkdirs p [] (components p) (remove_tree (components p) d1))
    as [d1'|e1] eqn:E1.
  - destruct (mkdirs_ok_agree _ _ _ _ _ _ H E1) as [d2' ->]. done.
  - by rewrite (mkdirs_raise_agree _ _ _ _ _ _ H E1).
Qed.

(** A save goes through when no regular file stands at the path or above
    it. *)
Lemma save_package_succeeds (p : string) (m : mlmodel) (d : gmap path node) :
  regular_file (d !! components p) = false →
  Forall (λ q, ∀ c, d !! q ≠ Some (File c)) (prefixes [] (parent (components p))) →
  ∃ d', save_package p m d = Ok d'.
Proof.
  intros Hk Hq. unfold save_package. rewrite Hk.
  destruct (mkdirs_succeeds p (components p) [] (remove_tree (components p) d))
    as [d' ->]; [|by eauto].
  apply Forall_forall. intros q Hin c. rewrite remove_tree_lookup.
  case_bool_decide as Hb; [done|].
  destruct (decide (components p = [])) as [Hn|Hn].
  - rewrite Hn in Hin. by apply elem_of_nil in Hin.
  - rewrite (prefixes_parent _ Hn) in Hin. apply elem_of_app in Hin as [Hin|Hin].
    + by apply (proj1 (Forall_forall _ _) Hq).
    + apply list_elem_of_singleton in Hin. by subst.
Qed.

(** A save that goes through found no regular file in its way, and leaves a
    directory at every path above the package. *)
Lemma save_package_dirs (p : string) (m : mlmodel) (d d' : gmap path node)
    (q : path) :
  save_package p m d = Ok d' →
  q ∈ prefixes [] (parent (components p)) →
  d' !! q = Some Dir ∧ (d !! q = Some Dir ∨ d !! q = None).
Proof.
  intros H Hq. pose proof (above_not_below _ _ Hq) as Hb.
  assert (components p ≠ []) as Hn.
  { intros Hn. rewrite Hn in Hq. by apply elem_of_nil in Hq. }
  assert (q ≠ components p) as Hne by (intros ->; by apply Hb).
  assert (q ∈ prefixes [] (components p)) as Hin.
  { rewrite (prefixes_parent _ Hn). apply elem_of_app. by left. }
  split.
  - rewrite (save_package_lookup _ _ _ _ q H).
    rewrite bool_decide_eq_false_2 by done. by rewrite bool_decide_eq_true_2.
  - revert H. unfold save_package. destruct (regular_file _); [done|].
    destruct (mkdirs _ _ _ _) as [d0|e] eqn:E; [|done]. intros _.
    destruct (mkdirs_changes _ _ _ _ _ E q) as [Hs|(_ & Hs & _)];
      rewrite remove_tree_lookup, bool_decide_eq_false_2 in Hs by done.
    + left. rewrite <- Hs.
      by apply (proj1 (Forall_forall _ _) (mkdirs_creates _ _ _ _ _ E)).
    + by right.
Qed.

Lemma save_package_regular (p : string) (m : mlmodel) (d d' : gmap path node) :
  save_package p m d = Ok d' → regular_file (d !! components p) = false.
Proof. unfold save_package. by destruct (regular_file _). Qed.

(** Saving again over what a save left changes nothing. *)
Lemma save_package_idempotent (p : string) (m : mlmodel) (d d' : gmap path node) :
  save_package p m d = Ok d' → save_package p m d' = Ok d'.
Proof.
  intros H.
  destruct (save_package_succeeds p m d') as [d'' H'].
  { rewrite (save_package_lookup _ _ _ _ _ H). by rewrite bool_decide_eq_true_2. }
  { apply Forall_forall. intros q Hq c.
    by rewrite (proj1 (save_package_dirs _ _ _ _ _ H Hq)). }
  rewrite H'. f_equal. apply map_eq. intros q.
  rewrite (save_package_lookup _ _ _ _ q H'), (save_package_lookup _ _ _ _ q H).
  repeat case_bool_decide; done.
Qed.

(** Past a successful load, the run is determined by what the tracer, the
    converter, the environment and the disk answer. *)
Lemma convert_model_loaded (d : gmap path node) (m : script_module)
    (s : list string) (c : list call) (pw : res ()) :
  loads d m →
  convert_model (World d s c pw)
  = match sm_coreml m (form_used m) with
    | Raise e =>
        (Ok (), World d (s ++ staged_lines m ++ convert_diagnostic e)
                  (c ++ staged_calls ++ [Call_ct_convert (form_used m)]) pw)
    | Ok _ =>
        match pw, save_package output_path (packaged m (form_used m)) d with
        | Ok _, Ok d' =>
            (Ok (), World d' (s ++ staged_lines m ++ success_report)
                      (c ++ staged_calls ++ [Call_ct_convert (form_used m)]
                         ++ metadata_calls ++ [Call_ml_save output_path]) pw)
        | Raise e, _ | Ok _, Raise e =>
            (Ok (), World d (s ++ staged_lines m ++ convert_diagnostic e)
                      (c ++ staged_calls ++ [Call_ct_convert (form_used m)]
                         ++ metadata_calls ++ [Call_ml_save output_path]) pw)
        end
    end.
Proof.
  intros H. unfold convert_model.
  unfold mbind at 1, M_bind at 1, print at 1. cbn [disk stdout calls pkg_write].
  unfold mbind at 1, M_bind at 1, try_ at 1.
  unfold mbind at 1, M_bind at 1. rewrite (torch_jit_load_ok _ m) by done.
  unfold convert_and_save, ct_convert, torch_jit_trace, torch_rand, module_eval,
    set_author, set_license, set_short_description, set_output_description, ml_save.
  unfold form_used, staged_lines, trace_line, staged_calls, convert_diagnostic,
    success_report, metadata_calls, packaged, tensor_input, start_line in *.
  run_script.
  destruct (sm_trace m example_shape) as [[]|x]; cbn [is_ok] in *; run_script;
    (match goal with |- context [sm_coreml m ?f] =>
       destruct (sm_coreml m f) as [[]|e] end);
    run_script.
  all: cbn [author license short_description input_description output_description
         ml_graph ml_form ml_inputs ml_outputs ml_convert_to ml_compute_units
         fmap list_fmap tt_name describe];
    rewrite ?bool_decide_eq_true_2 by done; run_script;
    cbn [author license short_description input_description output_description
         ml_graph ml_form ml_inputs ml_outputs ml_convert_to ml_compute_units
         describe];
    rewrite ?bool_decide_eq_true_2 by done; run_script.
  all: try (destruct pw as [[]|e]; run_script;
            [match goal with |- context [save_package ?p ?k ?d] =>
               destruct (save_package p k d) as [d'|e] end; run_script|]).
  all: tidy_lists.
  all: reflexivity.
Qed.

Lemma convert_model_convert_fails (d : gmap path node) (m : script_module)
    (e : exn) (s : list string) (c : list call) (pw : res ()) :
  loads d m →
  sm_coreml m (form_used m) = Raise e →
  convert_model (World d s c pw)
  = (Ok (), World d (s ++ staged_lines m ++ convert_diagnostic e)
                  (c ++ staged_calls ++ [Call_ct_convert (form_used m)]) pw).
Proof. intros H He. by rewrite (convert_model_loaded d m s c pw H), He. Qed.

Lemma convert_model_save_fails (d : gmap path node) (m : script_module)
    (e : exn) (s : list string) (c : list call) :
  loads d m →
  sm_coreml m (form_used m) = Ok () →
  convert_model (World d s c (Raise e))
  = (Ok (), World d (s ++ staged_lines m ++ convert_diagnostic e)
                  (c ++ staged_calls ++ [Call_ct_convert (form_used m)]
                     ++ metadata_calls ++ [Call_ml_save output_path]) (Raise e)).
Proof. intros H He. by rewrite (convert_model_loaded d m s c _ H), He. Qed.

(** The environment lets the write through, the disk does not: a regular
    file stands at the output path or above it. *)
Lemma convert_model_save_blocked (d : gmap path node) (m : script_module)
    (e : exn) (s : list string) (c : list call) :
  loads d m →
  sm_coreml m (form_used m) = Ok () →
  save_package output_path (packaged m (form_used m)) d = Raise e →
  convert_model (World d s c (Ok ()))
  = (Ok (), World d (s ++ staged_lines m ++ convert_diagnostic e)
                  (c ++ staged_calls ++ [Call_ct_convert (form_used m)]
                     ++ metadata_calls ++ [Call_ml_save output_path]) (Ok ())).
Proof. intros H He Hs. by rewrite (convert_model_loaded d m s c _ H), He, Hs. Qed.

Lemma convert_model_succeeds (d d' : gmap path node) (m : script_module)
    (s : list string) (c : list call) :
  loads d m →
  sm_coreml m (form_used m) = Ok () →
  save_package output_path (packaged m (form_used m)) d = Ok d' →
  convert_model (World d s c (Ok ()))
  = (Ok (), World d' (s ++ staged_lines m ++ success_report)
                  (c ++ staged_calls ++ [Call_ct_convert (form_used m)]
                     ++ metadata_calls ++ [Call_ml_save output_path]) (Ok ())).
Proof. intros H He Hs. by rewrite (convert_model_loaded d m s c _ H), He, Hs. Qed.

(** ** The shape of a run of the exporter script *)

Lemma main_load_fails (d : gmap path node) (pw : res ()) :
  fails_to_load d →
  run_exporter d pw
  = (Ok (), World d (banner ++ [ "❌ 检查失败: " +:+ str_exn (load_error d);
                                 nl +:+ "⚠️  请确保 model.pt 存在且可以正常加载" ])
                  [Call_jit_load model_path] pw).
Proof.
  intros H. unfold run_exporter, main, inspect_model, boot.
  unfold mbind, M_bind, print, try_. cbn [disk stdout calls pkg_write app].
  rewrite torch_jit_load_fails by done.
  unfold banner, mret, M_ret. cbn [disk stdout calls pkg_write app]. reflexivity.
Qed.

(** The check passes exactly when calling the module returns a tensor; the
    shape of that tensor is printed, not tested. *)
Lemma main_inspect_passes (d : gmap path node) (pw : res ()) (m : script_module)
    (sh : shape) (dt : dtype) :
  loads d m →
  sm_call m example_shape = Ok (Tensor sh dt) →
  run_exporter d pw
  = convert_model (World d (banner ++ inspect_report sh dt) inspect_calls pw).
Proof.
  intros H Hc. unfold run_exporter, main, inspect_model, boot.
  unfold mbind, M_bind, print, try_. cbn [disk stdout calls pkg_write app].
  rewrite (torch_jit_load_ok _ m) by done.
  unfold torch_rand, module_call, attr_shape, attr_dtype, banner, inspect_report,
    inspect_calls.
  unfold mbind, M_bind, mret, M_ret, log, lift.
  cbn [disk stdout calls pkg_write app]. rewrite Hc.
  cbn [disk stdout calls pkg_write app]. reflexivity.
Qed.

Lemma main_inspect_fails (d : gmap path node) (pw : res ()) (m : script_module) :
  loads d m →
  (∀ sh dt, sm_call m example_shape ≠ Ok (Tensor sh dt)) →
  ∃ out, run_exporter d pw = (Ok (), World d (banner ++ out) inspect_calls pw).
Proof.
  intros H Hc. unfold run_exporter, main, inspect_model, boot.
  unfold mbind, M_bind, print, try_. cbn [disk stdout calls pkg_write app].
  rewrite (torch_jit_load_ok _ m) by done.
  unfold torch_rand, module_call, attr_shape, attr_dtype, banner, inspect_calls.
  unfold mbind, M_bind, mret, M_ret, log, lift, raise.
  cbn [disk stdout calls pkg_write app].
  destruct (sm_call m example_shape) as [[sh dt|r]|x];
    cbn [disk stdout calls pkg_write app].
  - by destruct (Hc sh dt).
  - eexists. reflexivity.
  - eexists. reflexivity.
Qed.

Lemma load_cases (d : gmap path node) : fails_to_load d ∨ ∃ m, loads d m.
Proof.
  unfold fails_to_load, loads.
  destruct (d !! components model_path) as [[|[| m | |]]|]; try (left; congruence).
  right. by exists m.
Qed.

Lemma res_unit_cases (r : res ()) : r = Ok () ∨ ∃ e, r = Raise e.
Proof. destruct r as [[]|e]; eauto. Qed.

(** The five ways [convert_model] can go. *)
Lemma convert_model_cases (d : gmap path node) (s : list string) (c : list call)
    (pw : res ()) :
  (fails_to_load d
   ∧ convert_model (World d s c pw)
     = (Ok (), World d (s ++ start_line :: load_diagnostic (load_error d))
                     (c ++ [Call_jit_load model_path]) pw))
  ∨ (∃ m e, loads d m ∧ sm_coreml m (form_used m) = Raise e
            ∧ convert_model (World d s c pw)
              = (Ok (), World d (s ++ staged_lines m ++ convert_diagnostic e)
                          (c ++ staged_calls ++ [Call_ct_convert (form_used m)]) pw))
  ∨ (∃ m e, loads d m ∧ sm_coreml m (form_used m) = Ok () ∧ pw = Raise e
            ∧ convert_model (World d s c pw)
              = (Ok (), World d (s ++ staged_lines m ++ convert_diagnostic e)
                          (c ++ staged_calls ++ [Call_ct_convert (form_used m)]
                             ++ metadata_calls ++ [Call_ml_save output_path]) pw))
  ∨ (∃ m e, loads d m ∧ sm_coreml m (form_used m) = Ok () ∧ pw = Ok ()
            ∧ save_package output_path (packaged m (form_used m)) d = Raise e
            ∧ convert_model (World d s c pw)
              = (Ok (), World d (s ++ staged_lines m ++ convert_diagnostic e)
                          (c ++ staged_calls ++ [Call_ct_convert (form_used m)]
                             ++ metadata_calls ++ [Call_ml_save output_path]) pw))
  ∨ (∃ m d', loads d m ∧ sm_coreml m (form_used m) = Ok () ∧ pw = Ok ()
          ∧ save_package output_path (packaged m (form_used m)) d = Ok d'
          ∧ convert_model (World d s c pw)
            = (Ok (), World d' (s ++ staged_lines m ++ success_report)
                        (c ++ staged_calls ++ [Call_ct_convert (form_used m)]
                           ++ metadata_calls ++ [Call_ml_save output_path]) pw)).
Proof.
  destruct (load_cases d) as [H|[m H]].
  - left. split; [done|]. by apply convert_model_load_fails.
  - right. destruct (res_unit_cases (sm_coreml m (form_used m))) as [Hc|[e Hc]].
    + right. destruct (res_unit_cases pw) as [->|[e ->]].
      * right.
        destruct (save_package output_path (packaged m (form_used m)) d)
          as [d'|e] eqn:Hs.
        -- right. exists m, d'. split; [done|]. split; [done|]. split; [done|].
           split; [done|]. by apply convert_model_succeeds.
        -- left. exists m, e. split; [done|]. split; [done|]. split; [done|].
           split; [done|]. by apply convert_model_save_blocked.
      * left. exists m, e. split; [done|]. split; [done|]. split; [done|].
        by apply convert_model_save_fails.
    + left. exists m, e. split; [done|]. split; [done|].
      by apply convert_model_convert_fails.
Qed.

Lemma output_path_nonempty : components output_path ≠ [].
Proof. by vm_compute. Qed.

Lemma output_prefixes :
  prefixes [] (components output_path) = package_dirs ++ [components output_path].
Proof. exact (prefixes_parent _ output_path_nonempty). Qed.

(** What a save at the output path leaves untouched: every node that is
    neither the package path, nor below it, nor a directory above it. *)
Lemma save_package_frame (m : mlmodel) (d d' : gmap path node) (p : path) :
  save_package output_path m d = Ok d' →
  p ∉ package_dirs → ¬ components output_path `prefix_of` p →
  d' !! p = d !! p.
Proof.
  intros H Hd Hp. rewrite (save_package_lookup _ _ _ _ p H).
  rewrite bool_decide_eq_false_2 by (intros ->; by apply Hp).
  rewrite bool_decide_eq_false_2.
  - by rewrite bool_decide_eq_false_2.
  - rewrite output_prefixes. intros Hin. apply elem_of_app in Hin as [?|Hin]; [done|].
    apply list_elem_of_singleton in Hin. subst. by apply Hp.
Qed.

(** Whatever happens, [convert_model] returns normally and makes no call of
    its own that creates a directory.  It leaves every node as it was, but
    for the package path and what was below it, and for the directories
    above the package path, which the save creates where they were
    missing. *)
Lemma convert_model_frame (d : gmap path node) (s : list string) (c : list call)
    (pw : res ()) :
  (convert_model (World d s c pw)).1 = Ok ()
  ∧ (∀ p : path, p ∉ package_dirs → ¬ components output_path `prefix_of` p →
       disk (convert_model (World d s c pw)).2 !! p = d !! p)
  ∧ (∀ p : path, p ∈ package_dirs →
       disk (convert_model (World d s c pw)).2 !! p = d !! p
       ∨ (d !! p = None
          ∧ disk (convert_model (World d s c pw)).2 !! p = Some Dir))
  ∧ ∃ cl, calls (convert_model (World d s c pw)).2 = c ++ cl
          ∧ filter is_makedirs cl = [].
Proof.
  destruct (convert_model_cases d s c pw)
    as [[_ ->]|[(m & e & _ & _ & ->)|[(m & e & _ & _ & _ & ->)
       |[(m & e & _ & _ & _ & _ & ->)|(m & d' & _ & _ & _ & Hs & ->)]]]];
    cbn [fst snd disk calls]; (split; [done|]); (split; [|split]);
    try (intros p Hp; by left); try (intros p Hp Hq; done);
    try (eexists; (split; [reflexivity|]); reflexivity).
  - intros p Hp Hq. by eapply save_package_frame.
  - intros p Hp. destruct (save_package_dirs _ _ _ _ p Hs Hp) as [Hd [Ho|Ho]].
    + left. by rewrite Hd, Ho.
    + by right.
Qed.

(** With the package creatable, a run whose load and conversion succeed and
    whose write the environment allows saves the assembled package. *)
Lemma convert_model_saves (d : gmap path node) (m : script_module)
    (s : list string) (c : list call) :
  loads d m →
  sm_coreml m (form_used m) = Ok () →
  package_creatable d →
  ∃ d', save_package output_path (packaged m (form_used m)) d = Ok d'
        ∧ d' !! components output_path
          = Some (File (MLPackage (packaged m (form_used m))))
        ∧ convert_model (World d s c (Ok ()))
          = (Ok (), World d' (s ++ staged_lines m ++ success_report)
                      (c ++ staged_calls ++ [Call_ct_convert (form_used m)]
                         ++ metadata_calls ++ [Call_ml_save output_path]) (Ok ())).
Proof.
  intros H Hc [Hk Hq].
  destruct (save_package_succeeds output_path (packaged m (form_used m)) d Hk Hq)
    as [d' Hs].
  exists d'. split; [done|]. split; [|by apply convert_model_succeeds].
  rewrite (save_package_lookup _ _ _ _ _ Hs). by rewrite bool_decide_eq_true_2.
Qed.

Lemma package_creatable_check (d : gmap path node) :
  regular_file (d !! components output_path) = false →
  Forall (λ p, no_file_at d p = true) package_dirs →
  package_creatable d.
Proof. intros Hk Hq. split; [done|]. by apply no_file_at_Forall. Qed.

(** ** The model exporter: claims *)

(** C3.  When the model artifact fails to load, [convert_model] prints its
    load diagnostic and returns, and so does the script as a whole (whose
    first load, in [inspect_model], already fails): in both cases the
    attempted load is the only library call, so the conversion routine is
    never invoked and nothing is saved, and the disk, the output path
    included, is left as it was. *)
Theorem load_failure_stops_export (d : gmap path node) (pw : res ()) :
  fails_to_load d →
  (∃ w, convert_model (boot d pw) = (Ok (), w)
        ∧ stdout w = start_line :: load_diagnostic (load_error d)
        ∧ calls w = [Call_jit_load model_path]
        ∧ disk w = d)
  ∧ (∃ w, run_exporter d pw = (Ok (), w)
          ∧ stdout w = banner ++ [ "❌ 检查失败: " +:+ str_exn (load_error d);
                                   nl +:+ "⚠️  请确保 model.pt 存在且可以正常加载" ]
          ∧ calls w = [Call_jit_load model_path]
          ∧ disk w = d).
Proof.
  intros H. split.
  - unfold boot. rewrite convert_model_load_fails by done. eexists. by repeat split.
  - rewrite main_load_fails by done. eexists. by repeat split.
Qed.

Lemma load_failure_stops_export_witness :
  fails_to_load ∅
  ∧ (∃ w, convert_model (boot ∅ (Ok ())) = (Ok (), w)
          ∧ stdout w = start_line :: load_diagnostic (load_error ∅)
          ∧ calls w = [Call_jit_load model_path]
          ∧ disk w = ∅)
  ∧ (∃ w, run_exporter ∅ (Ok ()) = (Ok (), w)
          ∧ stdout w = banner ++ [ "❌ 检查失败: " +:+ str_exn (load_error ∅);
                                   nl +:+ "⚠️  请确保 model.pt 存在且可以正常加载" ]
          ∧ calls w = [Call_jit_load model_path]
          ∧ disk w = ∅).
Proof.
  assert (fails_to_load ∅) as H by (intros m Hm; discriminate Hm).
  split; [exact H|]. exact (load_failure_stops_export ∅ (Ok ()) H).
Defined.

(** The second assignment to a feature's description replaces the first. *)
Lemma describe_twice (k s1 s2 : string) (l l1 : list (string * string)) :
  describe k s1 l = Some l1 → describe k s2 l1 = describe k s2 l.
Proof.
  revert l1. induction l as [|[k' s'] l IH]; intros l1 H; simpl in *; [done|].
  case_bool_decide as Hk.
  - simplify_eq. simpl. by rewrite bool_decide_eq_true_2.
  - destruct (describe k s1 l) as [l'|] eqn:E; simpl in H; [|done].
    simplify_eq. simpl. rewrite bool_decide_eq_false_2 by done.
    by rewrite (IH l').
Qed.

Lemma describe_lookup (k s : string) (l l1 : list (string * string)) :
  describe k s l = Some l1 → (k, s) ∈ l1.
Proof.
  revert l1. induction l as [|[k' s'] l IH]; intros l1 H; simpl in *; [done|].
  case_bool_decide as Hk.
  - simplify_eq. apply elem_of_cons. by left.
  - destruct (describe k s l) as [l'|] eqn:E; simpl in H; [|done].
    simplify_eq. apply elem_of_cons. right. by apply IH.
Qed.

(** C9.  Whenever the exporter saves a package (the artifact loads, the
    converter accepts it and the write goes through: the environment allows
    it and no regular file stands at the output path or where one of the
    directories above it goes), the package at the
    output path carries exactly one output description, for "logits", and
    it is the second string assigned; the first string assigned is in none
    of the metadata fields of the saved package.  Both assignments are made,
    in that order; in general a second assignment to a feature's description
    replaces the first. *)
Theorem saved_logits_description (d : gmap path node) (m : script_module) :
  loads d m →
  sm_coreml m (form_used m) = Ok () →
  package_creatable d →
  (∃ pkg, disk (convert_model (boot d (Ok ()))).2 !! components output_path
          = Some (File (MLPackage pkg))
        ∧ output_description pkg = [("logits", second_logits_description)]
        ∧ (∀ k s, (k, s) ∈ output_description pkg → s ≠ first_logits_description)
        ∧ author pkg ≠ first_logits_description
        ∧ license pkg ≠ first_logits_description
        ∧ short_description pkg ≠ first_logits_description)
  ∧ filter is_set_output_description
      (calls (convert_model (boot d (Ok ()))).2)
    = [ Call_set_output_description "logits" first_logits_description;
        Call_set_output_description "logits" second_logits_description ]
  ∧ (∀ l l1, describe "logits" first_logits_description l = Some l1 →
       describe "logits" second_logits_description l1
       = describe "logits" second_logits_description l).
Proof.
  intros H Hc Hp. unfold boot.
  destruct (convert_model_saves d m [] [] H Hc Hp) as (d' & _ & Hk & ->).
  cbn [snd disk calls]. split; [|split].
  - exists (packaged m (form_used m)).
    split; [done|]. cbn [packaged output_description author license short_description].
    split; [done|]. split.
    + intros k s Hin. apply list_elem_of_singleton in Hin. by simplify_eq.
    + by repeat split.
  - reflexivity.
  - intros l l1. apply describe_twice.
Qed.

Lemma saved_logits_description_witness :
  loads (disk_with_model sound_module) sound_module
  ∧ sm_coreml sound_module (form_used sound_module) = Ok ()
  ∧ package_creatable (disk_with_model sound_module)
  ∧ (∃ pkg, disk (convert_model (boot (disk_with_model sound_module) (Ok ()))).2
              !! components output_path = Some (File (MLPackage pkg))
        ∧ output_description pkg = [("logits", second_logits_description)]
        ∧ (∀ k s, (k, s) ∈ output_description pkg → s ≠ first_logits_description)
        ∧ author pkg ≠ first_logits_description
        ∧ license pkg ≠ first_logits_description
        ∧ short_description pkg ≠ first_logits_description)
  ∧ filter is_set_output_description
      (calls (convert_model (boot (disk_with_model sound_module) (Ok ()))).2)
    = [ Call_set_output_description "logits" first_logits_description;
        Call_set_output_description "logits" second_logits_description ]
  ∧ (∀ l l1, describe "logits" first_logits_description l = Some l1 →
       describe "logits" second_logits_description l1
       = describe "logits" second_logits_description l).
Proof.
  assert (loads (disk_with_model sound_module) sound_module) as H1
    by (vm_compute; reflexivity).
  assert (sm_coreml sound_module (form_used sound_module) = Ok ()) as H2
    by reflexivity.
  assert (package_creatable (disk_with_model sound_module)) as H3.
  { apply package_creatable_check; [by vm_compute|].
    apply (bool_decide_unpack _); vm_compute; exact I. }
  split; [exact H1|]. split; [exact H2|]. split; [exact H3|].
  exact (saved_logits_description _ _ H1 H2 H3).
Defined.

(** C2, as amended.  When the artifact loads, its forward pass on the
    (1,3,42,130) example yields a tensor of shape (1,15,8), the converter
    accepts the model in the form that reaches it, and the package write goes
    through (the environment allows it and no regular file stands at the
    output path or where one of the directories above it goes), the exporter
    script returns normally and the assembled package is at the fixed output
    path. *)
Theorem export_succeeds_when_convertible (d : gmap path node) (m : script_module)
    (dt : dtype) :
  loads d m →
  sm_call m example_shape = Ok (Tensor [1; 15; 8] dt) →
  sm_coreml m (form_used m) = Ok () →
  package_creatable d →
  (run_exporter d (Ok ())).1 = Ok ()
  ∧ disk (run_exporter d (Ok ())).2 !! components output_path
    = Some (File (MLPackage (packaged m (form_used m)))).
Proof.
  intros H Hcall Hc Hp. rewrite (main_inspect_passes d _ m _ dt H Hcall).
  destruct (convert_model_saves d m (banner ++ inspect_report [1; 15; 8] dt)
              inspect_calls H Hc Hp) as (d' & _ & Hk & ->).
  by cbn [fst snd disk].
Qed.

Lemma export_succeeds_when_convertible_witness :
  loads (disk_with_model sound_module) sound_module
  ∧ sm_call sound_module example_shape = Ok (Tensor [1; 15; 8] Float32)
  ∧ sm_coreml sound_module (form_used sound_module) = Ok ()
  ∧ package_creatable (disk_with_model sound_module)
  ∧ (run_exporter (disk_with_model sound_module) (Ok ())).1 = Ok ()
  ∧ disk (run_exporter (disk_with_model sound_module) (Ok ())).2
      !! components output_path
    = Some (File (MLPackage (packaged sound_module (form_used sound_module)))).
Proof.
  assert (loads (disk_with_model sound_module) sound_module) as H1
    by (vm_compute; reflexivity).
  assert (sm_call sound_module example_shape = Ok (Tensor [1; 15; 8] Float32)) as H2
    by reflexivity.
  assert (sm_coreml sound_module (form_used sound_module) = Ok ()) as H3
    by reflexivity.
  assert (package_creatable (disk_with_model sound_module)) as H4.
  { apply package_creatable_check; [by vm_compute|].
    apply (bool_decide_unpack _); vm_compute; exact I. }
  split; [exact H1|]. split; [exact H2|]. split; [exact H3|]. split; [exact H4|].
  exact (export_succeeds_when_convertible _ _ _ H1 H2 H3 H4).
Defined.

(** C2, as stated, fails: [unconvertible_module] loads and its forward pass
    yields a (1,15,8) tensor, yet the exporter leaves no package at the
    output path, because the converter rejects the model and the script
    catches that and prints its diagnostic. *)
Lemma unconvertible_export_fails :
  loads (disk_with_model unconvertible_module) unconvertible_module
  ∧ sm_call unconvertible_module example_shape = Ok (Tensor [1; 15; 8] Float32)
  ∧ disk (run_exporter (disk_with_model unconvertible_module) (Ok ())).2
      !! components output_path = None
  ∧ ¬ ∃ pkg, disk (run_exporter (disk_with_model unconvertible_module) (Ok ())).2
               !! components output_path = Some (File (MLPackage pkg)).
Proof.
  assert (disk (run_exporter (disk_with_model unconvertible_module) (Ok ())).2
            !! components output_path = None) as Hn by (vm_compute; reflexivity).
  split; [vm_compute; reflexivity|]. split; [reflexivity|]. split; [exact Hn|].
  intros [pkg Hp]. rewrite Hn in Hp. discriminate.
Qed.



(** The exporter script as a whole keeps the frame of [convert_model]. *)
Lemma run_exporter_frame (d : gmap path node) (pw : res ()) :
  (run_exporter d pw).1 = Ok ()
  ∧ (∀ p : path, p ∉ package_dirs → ¬ components output_path `prefix_of` p →
       disk (run_exporter d pw).2 !! p = d !! p)
  ∧ (∀ p : path, p ∈ package_dirs →
       disk (run_exporter d pw).2 !! p = d !! p
       ∨ (d !! p = None ∧ disk (run_exporter d pw).2 !! p = Some Dir))
  ∧ filter is_makedirs (calls (run_exporter d pw).2) = [].
Proof.
  destruct (load_cases d) as [H|[m H]].
  - rewrite main_load_fails by done. cbn [fst snd disk calls].
    split; [done|]. split; [done|]. split; [by left|done].
  - destruct (sm_call m example_shape) as [[sh dt|r]|x] eqn:Hc.
    + rewrite (main_inspect_passes d pw m sh dt H Hc).
      destruct (convert_model_frame d (banner ++ inspect_report sh dt) inspect_calls pw)
        as (Hr & Hf & Hd & cl & Hcl & Hmk).
      split; [done|]. split; [done|]. split; [done|].
      by rewrite Hcl, filter_app, Hmk.
    + destruct (main_inspect_fails d pw m H) as [out ->]; [congruence|].
      cbn [fst snd disk calls]. split; [done|]. split; [done|]. split; [by left|done].
    + destruct (main_inspect_fails d pw m H) as [out ->]; [congruence|].
      cbn [fst snd disk calls]. split; [done|]. split; [done|]. split; [by left|done].
Qed.



(** A run that gets past [os.makedirs] leaves the destination directory and
    all its ancestors on disk as directories, whatever happens next. *)
Lemma run_icons_makes_dirs (d d1 : gmap path node) :
  is_Some (d !! components android_icon_path) →
  mkdirs ios_appicon_dir [] (components ios_appicon_dir) d = Ok d1 →
  Forall (λ p, disk (run_icons d).2 !! p = Some Dir) appicon_dirs.
Proof.
  intros [n0 Hn0] Hmk0.
  pose proof (mkdirs_creates _ _ _ _ _ Hmk0) as Hd1.
  destruct (run_icons_cases d)
    as [H|[(n & e & H & Hmk)|[(n & d1' & H & Hn & Hmk)
        |[(im & d1' & x & H & Hnm & Hnl & Hmk)|(im & d1' & H & Hc & Hmk)]]]];
    try congruence.
  - erewrite run_icons_unreadable by done. cbn [snd disk].
    by assert (d1' = d1) as -> by congruence.
  - rewrite (run_icons_undecodable d d1' im x H Hnm Hnl Hmk). cbn [snd disk].
    by assert (d1' = d1) as -> by congruence.
  - rewrite (run_icons_loop d d1' im H Hc Hmk).
    destruct (for_ _ _ _) as [r w] eqn:E.
    assert (disk (match r with
                  | Ok _ => (Ok (), World (disk w) (stdout w ++ epilogue_lines)
                                      (calls w) (pkg_write w))
                  | Raise e => (Ok (), World (disk w)
                                         (stdout w ++ ["❌ 错误: " +:+ str_exn e])
                                         (calls w) (pkg_write w))
                  end).2 = disk w) as -> by (by destruct r as [[]|]).
    assert (d1' = d1) as -> by congruence.
    apply Forall_forall. intros p Hp.
    pose proof (proj1 (Forall_forall _ _) Hd1 p Hp) as Hd.
    destruct (loop_changes _ _ (working_image_mode im) _ _ _ E p)
      as [->|(_ & _ & _ & _ & Hnd)]; cbn [disk] in *; [done|by destruct Hnd].
Qed.

(** A run that saves anything leaves the destination directory and all its
    ancestors on disk as directories. *)
Lemma run_icons_dirs (d : gmap path node) :
  filter is_save (calls (run_icons d).2) ≠ [] →
  Forall (λ p, disk (run_icons d).2 !! p = Some Dir) appicon_dirs.
Proof.
  destruct (run_icons_cases d)
    as [H|[(n & e & H & Hmk)|[(n & d1 & H & Hn & Hmk)
        |[(im & d1 & x & H & Hnm & Hnl & Hmk)|(im & d1 & H & Hc & Hmk)]]]].
  - rewrite run_icons_missing by done. intros Hs. by destruct Hs.
  - erewrite run_icons_blocked by done. intros Hs. by destruct Hs.
  - erewrite run_icons_unreadable by done. intros Hs. by destruct Hs.
  - rewrite (run_icons_undecodable d d1 im x H Hnm Hnl Hmk). intros Hs. by destruct Hs.
  - intros _. apply (run_icons_makes_dirs d d1); [|done].
    destruct H as [fmt H]. by eauto.
Qed.




(** * Further properties *)

(** ** [inspect_model] on its own *)

Lemma inspect_model_load_fails (d : gmap path node) (s : list string)
    (c : list call) (pw : res ()) :
  fails_to_load d →
  inspect_model (World d s c pw)
  = (Ok false,
     World d (s ++ [ "🔍 检查模型信息..."; "❌ 检查失败: " +:+ str_exn (load_error d) ])
           (c ++ [Call_jit_load model_path]) pw).
Proof.
  intros H. unfold inspect_model.
  unfold mbind, M_bind, print, try_. cbn [disk stdout calls pkg_write].
  rewrite torch_jit_load_fails by done.
  unfold mret, M_ret. cbn [disk stdout calls pkg_write].
  rewrite <- !app_assoc. reflexivity.
Qed.

Lemma inspect_model_loaded (d : gmap path node) (m : script_module)
    (s : list string) (c : list call) (pw : res ()) :
  loads d m →
  inspect_model (World d s c pw)
  = match sm_call m example_shape with
    | Ok (Tensor sh dt) =>
        (Ok true,
         World d (s ++ [ "🔍 检查模型信息..."; "✅ 模型类型: TorchScript";
                         "📏 输入形状: " +:+ show_shape example_shape;
                         "📐 输出形状: " +:+ show_shape sh;
                         "🎯 输出数据类型: " +:+ show_dtype dt ])
               (c ++ inspect_calls) pw)
    | Ok (Other r) =>
        (Ok false,
         World d (s ++ [ "🔍 检查模型信息..."; "✅ 模型类型: TorchScript";
                         "📏 输入形状: " +:+ show_shape example_shape;
                         "❌ 检查失败: " +:+ quoted r
                           +:+ " object has no attribute 'shape'" ])
               (c ++ inspect_calls) pw)
    | Raise e =>
        (Ok false,
         World d (s ++ [ "🔍 检查模型信息..."; "✅ 模型类型: TorchScript";
                         "❌ 检查失败: " +:+ str_exn e ])
               (c ++ inspect_calls) pw)
    end.
Proof.
  intros H. unfold inspect_model.
  unfold mbind, M_bind, print, try_. cbn [disk stdout calls pkg_write].
  rewrite (torch_jit_load_ok _ m) by done.
  unfold torch_rand, module_call, attr_shape, attr_dtype, inspect_calls.
  unfold mbind, M_bind, mret, M_ret, log, lift, raise.
  cbn [disk stdout calls pkg_write].
  destruct (sm_call m example_shape) as [[sh dt|r]|x];
    cbn [disk stdout calls pkg_write str_exn exn_msg];
    rewrite <- !app_assoc; reflexivity.
Qed.

(** ** Further properties of the exporter *)

(** X1.  [inspect_model] never raises and never changes the disk.  It
    returns [True] exactly when the artifact loads and calling it on the
    example input returns a tensor; the shape and dtype of that tensor are
    printed but not compared with anything, so any tensor passes.  When it
    returns [False] the last line printed is the check-failed diagnostic. *)
Theorem inspect_model_verdict (d : gmap path node) (pw : res ()) :
  ∃ b out cl,
    inspect_model (boot d pw) = (Ok b, World d out cl pw)
    ∧ (b = true ↔ inspection_passes d)
    ∧ (∀ m sh dt, loads d m → sm_call m example_shape = Ok (Tensor sh dt) →
         out = [ "🔍 检查模型信息..."; "✅ 模型类型: TorchScript";
                 "📏 输入形状: " +:+ show_shape example_shape;
                 "📐 输出形状: " +:+ show_shape sh;
                 "🎯 输出数据类型: " +:+ show_dtype dt ])
    ∧ (b = false → ∃ pre e, out = pre ++ ["❌ 检查失败: " +:+ str_exn e])
    ∧ filter is_ct_convert cl = [] ∧ filter is_ml_save cl = [].
Proof.
  unfold boot, inspection_passes. destruct (load_cases d) as [H|[m H]].
  - rewrite inspect_model_load_fails by done. eexists _, _, _.
    split; [reflexivity|]. split; [|split; [|split; [|by split]]].
    + split; [done|]. intros (m & _ & _ & Hm & _). by destruct (H m).
    + intros m ? ? Hm. by destruct (H m).
    + intros _. by exists ["🔍 检查模型信息..."], (load_error d).
  - rewrite (inspect_model_loaded d m) by done.
    destruct (sm_call m example_shape) as [[sh dt|r]|x] eqn:Hc.
    + eexists _, _, _. split; [reflexivity|]. split; [|split; [|split; [|by split]]].
      * split; [|done]. intros _. by exists m, sh, dt.
      * intros m' sh' dt' Hm' Hc'.
        assert (m' = m) as -> by (unfold loads in *; congruence).
        rewrite Hc in Hc'. by simplify_eq.
      * done.
    + eexists _, _, _. split; [reflexivity|]. split; [|split; [|split; [|by split]]].
      * split; [done|]. intros (m' & sh & dt & Hm' & Hc').
        assert (m' = m) as -> by (unfold loads in *; congruence). congruence.
      * intros m' sh' dt' Hm' Hc'.
        assert (m' = m) as -> by (unfold loads in *; congruence). congruence.
      * intros _.
        exists [ "🔍 检查模型信息..."; "✅ 模型类型: TorchScript";
                 "📏 输入形状: " +:+ show_shape example_shape ],
          (Exn "AttributeError" (quoted r +:+ " object has no attribute 'shape'")).
        reflexivity.
    + eexists _, _, _. split; [reflexivity|]. split; [|split; [|split; [|by split]]].
      * split; [done|]. intros (m' & sh & dt & Hm' & Hc').
        assert (m' = m) as -> by (unfold loads in *; congruence). congruence.
      * intros m' sh' dt' Hm' Hc'.
        assert (m' = m) as -> by (unfold loads in *; congruence). congruence.
      * intros _.
        by exists [ "🔍 检查模型信息..."; "✅ 模型类型: TorchScript" ], x.
Qed.

(** X2.  The script converts only behind the check.  When the check passes
    the script is [convert_model] run after the banner and the report, and
    the artifact is loaded twice; when it does not pass, the script calls
    neither the tracer nor the converter nor the package writer, leaves the
    disk as it was and ends with the advice line.  The forward pass is
    tested only by the check: [convert_model] on its own, when the package
    can be written, converts and saves an artifact without ever calling it,
    so also one whose forward pass fails. *)
Theorem conversion_is_gated (d : gmap path node) (pw : res ()) :
  (∀ m sh dt, loads d m → sm_call m example_shape = Ok (Tensor sh dt) →
     run_exporter d pw
     = convert_model (World d (banner ++ inspect_report sh dt) inspect_calls pw)
     ∧ length (filter is_jit_load (calls (run_exporter d pw).2)) = 2%nat)
  ∧ (¬ inspection_passes d →
       (run_exporter d pw).1 = Ok ()
       ∧ disk (run_exporter d pw).2 = d
       ∧ filter is_jit_trace (calls (run_exporter d pw).2) = []
       ∧ filter is_ct_convert (calls (run_exporter d pw).2) = []
       ∧ filter is_ml_save (calls (run_exporter d pw).2) = []
       ∧ last (stdout (run_exporter d pw).2)
         = Some (nl +:+ "⚠️  请确保 model.pt 存在且可以正常加载"))
  ∧ (∀ m, loads d m → sm_coreml m (form_used m) = Ok () → pw = Ok () →
       package_creatable d →
       filter is_forward (calls (convert_model (boot d pw)).2) = []
       ∧ disk (convert_model (boot d pw)).2 !! components output_path
         = Some (File (MLPackage (packaged m (form_used m))))).
Proof.
  split; [|split].
  - intros m sh dt H Hc. rewrite (main_inspect_passes d pw m sh dt H Hc).
    split; [done|].
    destruct (convert_model_cases d (banner ++ inspect_report sh dt) inspect_calls pw)
      as [[Hl _]|[(m' & e & _ & _ & ->)|[(m' & e & _ & _ & _ & ->)
         |[(m' & e & _ & _ & _ & _ & ->)|(m' & d' & _ & _ & _ & _ & ->)]]]];
      [by destruct (Hl m)| | | |]; cbn [snd calls]; by vm_compute.
  - intros Hn. destruct (load_cases d) as [H|[m H]].
    + rewrite main_load_fails by done. cbn [fst snd disk stdout calls].
      by repeat split.
    + destruct (sm_call m example_shape) as [[sh dt|r]|x] eqn:Hc.
      * destruct Hn. by exists m, sh, dt.
      * unfold run_exporter, main, inspect_model, boot.
        unfold mbind, M_bind, print, try_. cbn [disk stdout calls pkg_write app].
        rewrite (torch_jit_load_ok _ m) by done.
        unfold torch_rand, module_call, attr_shape, attr_dtype.
        unfold mbind, M_bind, mret, M_ret, log, lift, raise.
        cbn [disk stdout calls pkg_write app]. rewrite Hc.
        cbn [fst snd disk stdout calls pkg_write app]. by repeat split.
      * unfold run_exporter, main, inspect_model, boot.
        unfold mbind, M_bind, print, try_. cbn [disk stdout calls pkg_write app].
        rewrite (torch_jit_load_ok _ m) by done.
        unfold torch_rand, module_call, attr_shape, attr_dtype.
        unfold mbind, M_bind, mret, M_ret, log, lift, raise.
        cbn [disk stdout calls pkg_write app]. rewrite Hc.
        cbn [fst snd disk stdout calls pkg_write app]. by repeat split.
  - intros m H Hc -> Hp. unfold boot.
    destruct (convert_model_saves d m [] [] H Hc Hp) as (d' & _ & Hk & ->).
    cbn [snd disk calls]. split; [by vm_compute|done].
Qed.

Lemma conversion_is_gated_witness :
  loads (disk_with_model crashing_module) crashing_module
  ∧ ¬ inspection_passes (disk_with_model crashing_module)
  ∧ sm_coreml crashing_module (form_used crashing_module) = Ok ()
  ∧ package_creatable (disk_with_model crashing_module)
  ∧ disk (run_exporter (disk_with_model crashing_module) (Ok ())).2
    = disk_with_model crashing_module
  ∧ filter is_ct_convert (calls (run_exporter (disk_with_model crashing_module) (Ok ())).2)
    = []
  ∧ disk (convert_model (boot (disk_with_model crashing_module) (Ok ()))).2
      !! components output_path
    = Some (File (MLPackage (packaged crashing_module (form_used crashing_module)))).
Proof.
  assert (loads (disk_with_model crashing_module) crashing_module) as H1
    by (vm_compute; reflexivity).
  assert (¬ inspection_passes (disk_with_model crashing_module)) as H2.
  { intros (m & sh & dt & Hm & Hc).
    assert (m = crashing_module) as -> by (unfold loads in *; congruence).
    discriminate Hc. }
  assert (sm_coreml crashing_module (form_used crashing_module) = Ok ()) as H3
    by reflexivity.
  pose proof (conversion_is_gated (disk_with_model crashing_module) (Ok ()))
    as (_ & Hgate & Hconv).
  destruct (Hgate H2) as (_ & Hd & _ & Hc & _).
  assert (package_creatable (disk_with_model crashing_module)) as H4.
  { apply package_creatable_check; [by vm_compute|].
    apply (bool_decide_unpack _); vm_compute; exact I. }
  destruct (Hconv crashing_module H1 H3 eq_refl H4) as (_ & Hp).
  split; [exact H1|]. split; [exact H2|]. split; [exact H3|]. split; [exact H4|].
  split; [exact Hd|]. split; [exact Hc|exact Hp].
Defined.

Lemma model_not_output : components model_path ≠ components output_path.
Proof. apply (bool_decide_unpack _). by vm_compute. Qed.

Lemma source_not_output : components android_icon_path ≠ components output_path.
Proof. apply (bool_decide_unpack _). by vm_compute. Qed.

Lemma model_not_icon_output :
  (components model_path ∉ prefixes [] (components ios_appicon_dir))
  ∧ (components model_path ∉ icon_paths ios_icon_sizes).
Proof. split; apply (bool_decide_unpack _); by vm_compute. Qed.

Lemma output_not_icon_output :
  (components output_path ∉ prefixes [] (components ios_appicon_dir))
  ∧ (components output_path ∉ icon_paths ios_icon_sizes).
Proof. split; apply (bool_decide_unpack _); by vm_compute. Qed.

Lemma icon_output_not_output (p : path) :
  p ∈ prefixes [] (components ios_appicon_dir) ∨ p ∈ icon_paths ios_icon_sizes →
  p ≠ components output_path.
Proof.
  intros [Hp|Hp] ->.
  - by apply (proj1 output_not_icon_output).
  - by apply (proj2 output_not_icon_output).
Qed.

Lemma off_package_spec (p : path) :
  off_package p = true →
  (p ∉ package_dirs) ∧ ¬ components output_path `prefix_of` p.
Proof.
  unfold off_package. intros H. apply andb_true_iff in H as [H1 H2].
  split; by eapply bool_decide_eq_true_1.
Qed.

Lemma model_off_package : off_package (components model_path) = true.
Proof. by vm_compute. Qed.

Lemma source_off_package : off_package (components android_icon_path) = true.
Proof. by vm_compute. Qed.

Lemma icons_off_package :
  Forall (λ p, off_package p = true) (icon_paths ios_icon_sizes).
Proof. apply (bool_decide_unpack _). by vm_compute. Qed.

(** No destination directory of the icon generator is the package path or
    below it. *)
Lemma appicon_dirs_not_below :
  Forall (λ p, ¬ components output_path `prefix_of` p) appicon_dirs.
Proof. apply (bool_decide_unpack _). by vm_compute. Qed.

(** A run of the icon generator leaves every node outside the destination
    directories and the table's paths as it was. *)
Lemma run_icons_frame (d : gmap path node) (p : path) :
  p ∉ appicon_dirs → p ∉ icon_paths ios_icon_sizes →
  disk (run_icons d).2 !! p = d !! p.
Proof.
  intros Hd Hi.
  destruct (run_icons_changes d p) as [?|[(? & _)|(e & im & He & _ & -> & _)]];
    [done|done|].
  destruct Hi. unfold icon_paths. apply list_elem_of_fmap. by exists e.
Qed.

(** X3.  Neither tool ever modifies an input, its own or the other's.  After
    any run of the icon generator the source image, the model artifact and
    the package path are as they were.  After any run of the exporter the
    model artifact, the source image and every icon path are as they were,
    and each destination directory of the icon generator is as it was or,
    where it is also a directory above the package path and was missing, has
    been created by the save. *)
Theorem inputs_are_never_modified (d : gmap path node) (pw : res ()) :
  disk (run_icons d).2 !! components android_icon_path
    = d !! components android_icon_path
  ∧ disk (run_icons d).2 !! components model_path = d !! components model_path
  ∧ disk (run_icons d).2 !! components output_path = d !! components output_path
  ∧ disk (run_exporter d pw).2 !! components model_path = d !! components model_path
  ∧ disk (run_exporter d pw).2 !! components android_icon_path
    = d !! components android_icon_path
  ∧ (∀ p : path, p ∈ icon_paths ios_icon_sizes →
       disk (run_exporter d pw).2 !! p = d !! p)
  ∧ (∀ p : path, p ∈ appicon_dirs →
       disk (run_exporter d pw).2 !! p = d !! p
       ∨ (p ∈ package_dirs ∧ d !! p = None
          ∧ disk (run_exporter d pw).2 !! p = Some Dir)).
Proof.
  destruct (run_exporter_frame d pw) as (_ & Hf & Hd & _).
  pose proof (run_icons_frame d) as Hi.
  split; [|split; [|split; [|split; [|split; [|split]]]]].
  - apply Hi; [exact source_not_dir|exact source_not_icon].
  - apply Hi; [exact (proj1 model_not_icon_output)|exact (proj2 model_not_icon_output)].
  - apply Hi; [exact (proj1 output_not_icon_output)|exact (proj2 output_not_icon_output)].
  - destruct (off_package_spec _ model_off_package). by apply Hf.
  - destruct (off_package_spec _ source_off_package). by apply Hf.
  - intros p Hp.
    destruct (off_package_spec _ (proj1 (Forall_forall _ _) icons_off_package p Hp)).
    by apply Hf.
  - intros p Hp. destruct (decide (p ∈ package_dirs)) as [Hin|Hin].
    + destruct (Hd p Hin) as [?|[? ?]]; [by left|by right].
    + left. apply Hf; [done|].
      by apply (proj1 (Forall_forall _ _) appicon_dirs_not_below).
Qed.

(** What a run of the exporter script does to the disk: nothing, or, when
    the check passes, the converter accepts the model and the write goes
    through, what the package save does. *)
Lemma run_exporter_disk (d : gmap path node) (pw : res ()) :
  disk (run_exporter d pw).2 = d
  ∨ ∃ m sh dt d', loads d m ∧ sm_call m example_shape = Ok (Tensor sh dt)
               ∧ sm_coreml m (form_used m) = Ok () ∧ pw = Ok ()
               ∧ save_package output_path (packaged m (form_used m)) d = Ok d'
               ∧ disk (run_exporter d pw).2 = d'.
Proof.
  destruct (load_cases d) as [H|[m H]].
  - left. by rewrite main_load_fails.
  - destruct (sm_call m example_shape) as [[sh dt|r]|x] eqn:Hc.
    + rewrite (main_inspect_passes d pw m sh dt H Hc).
      destruct (convert_model_cases d (banner ++ inspect_report sh dt) inspect_calls pw)
        as [[_ ->]|[(m' & e & _ & _ & ->)|[(m' & e & _ & _ & _ & ->)
           |[(m' & e & _ & _ & _ & _ & ->)|(m' & d' & Hm' & Hc' & Hp & Hs & ->)]]]];
        [by left|by left|by left|by left|].
      right. assert (m' = m) as -> by (unfold loads in *; congruence).
      by exists m, sh, dt, d'.
    + left. destruct (main_inspect_fails d pw m H) as [out ->]; [congruence|done].
    + left. destruct (main_inspect_fails d pw m H) as [out ->]; [congruence|done].
Qed.

(** X4.  Running the exporter script again on the disk the first run left
    behind, with the same answer of the environment to the write, gives the
    very same outcome: the second run overwrites the package with an equal
    one and prints and calls the same. *)
Theorem rerun_exporter_is_idempotent (d : gmap path node) (pw : res ()) :
  run_exporter (disk (run_exporter d pw).2) pw = run_exporter d pw.
Proof.
  destruct (run_exporter_disk d pw)
    as [->|(m & sh & dt & d' & H & Hc & Hk & -> & Hs & Hd)]; [done|].
  rewrite Hd.
  assert (loads d' m) as H'.
  { unfold loads. rewrite <- H.
    destruct (off_package_spec _ model_off_package).
    by eapply save_package_frame. }
  rewrite (main_inspect_passes _ (Ok ()) m sh dt H' Hc).
  rewrite (main_inspect_passes d (Ok ()) m sh dt H Hc).
  rewrite (convert_model_succeeds d' d' m), (convert_model_succeeds d d' m); try done.
  by eapply save_package_idempotent.
Qed.

(** ** Further properties of the icon generator *)


(** X5.  The directory creation is not inside the [try]: when the source
    exists but a regular file stands where the destination directory or one
    of its ancestors goes, the run ends with the exception of [os.makedirs]
    propagating out of [generate_icons], with nothing printed, nothing
    opened and the disk as it was. *)
Theorem makedirs_failure_is_not_caught (d : gmap path node) (p : path) (c : content) :
  is_Some (d !! components android_icon_path) →
  p ∈ appicon_dirs → d !! p = Some (File c) →
  ∃ e, run_icons d
       = (Raise e, World d [] [Call_exists android_icon_path;
                               Call_makedirs ios_appicon_dir] (Ok ()))
       ∧ (exn_type e = "FileExistsError" ∨ exn_type e = "NotADirectoryError").
Proof.
  intros [n Hn] Hp Hf.
  destruct (mkdirs_blocked ios_appicon_dir _ _ _ _ _ Hp Hf) as (e & Hmk & He).
  exists e. split; [|done]. by eapply run_icons_blocked.
Qed.

Lemma makedirs_failure_is_not_caught_witness :
  is_Some (blocked_disk !! components android_icon_path)
  ∧ ["BJTUselfServiceApple"] ∈ appicon_dirs
  ∧ blocked_disk !! ["BJTUselfServiceApple"] = Some (File (Blob ""))
  ∧ ∃ e, run_icons blocked_disk
         = (Raise e, World blocked_disk [] [Call_exists android_icon_path;
                                            Call_makedirs ios_appicon_dir] (Ok ()))
         ∧ (exn_type e = "FileExistsError" ∨ exn_type e = "NotADirectoryError").
Proof.
  assert (is_Some (blocked_disk !! components android_icon_path)) as H1
    by (eexists; vm_compute; reflexivity).
  assert (["BJTUselfServiceApple"] ∈ appicon_dirs) as H2
    by (apply (bool_decide_unpack _); vm_compute; exact I).
  assert (blocked_disk !! ["BJTUselfServiceApple"] = Some (File (Blob ""))) as H3
    by (vm_compute; reflexivity).
  split; [exact H1|]. split; [exact H2|]. split; [exact H3|].
  exact (makedirs_failure_is_not_caught _ _ _ H1 H2 H3).
Defined.








(** A loop that returns normally has written every entry, printed one line
    per entry and made the two calls of every entry. *)
Lemma loop_ok (img : image) (l : list (string * (Z * Z))) :
  im_mode img = M_RGBA →
  NoDup (icon_paths l) →
  ∀ (w w' : world),
  for_ l (generate_one img) w = (Ok (), w') →
  calls w' = calls w ++ (l ≫= icon_calls)
  ∧ stdout w' = stdout w ++ (icon_line <$> l)
  ∧ Forall (λ e, disk w' !! icon_path e.1 = Some (icon_of img e.2)) l.
Proof.
  intros Hm. induction l as [|e l IH]; intros Hnd w w' H.
  - inversion H; subst. cbn. by rewrite !app_nil_r.
  - apply NoDup_cons in Hnd as [Hnin Hnd]. rewrite for_cons in H.
    destruct (generate_one img e w) as [[[]|x] w1] eqn:E; [|done].
    destruct (generate_one_cases _ _ _ _ _ Hm E)
      as [(_ & Hload & _ & _ & _ & _ & ->)|(? & ? & _)]; [|done].
    destruct (IH Hnd _ _ H) as (Hc & Hs & Hall). cbn [calls stdout] in Hc, Hs.
    split; [|split].
    + rewrite Hc. cbn [mbind list_bind]. by rewrite <- app_assoc.
    + rewrite Hs. cbn [fmap list_fmap]. by rewrite <- app_assoc.
    + constructor; [|done].
      pose proof (loop_frame _ _ _ _ _ (icon_path e.1) Hm H Hnin) as Hf.
      cbn [disk] in Hf. by rewrite Hf, lookup_insert_eq.
Qed.

(** Whatever the loop does, what it prints is one line per entry of an
    initial segment of the table. *)
Lemma loop_stdout (img : image) (l : list (string * (Z * Z))) :
  im_mode img = M_RGBA →
  ∀ (w : world) (r : res ()) (w' : world),
  for_ l (generate_one img) w = (r, w') →
  ∃ k, stdout w' = stdout w ++ (icon_line <$> take k l).
Proof.
  intros Hm. induction l as [|e l IH]; intros w r w' H.
  - inversion H; subst. exists 0%nat. by rewrite app_nil_r.
  - rewrite for_cons in H.
    destruct (generate_one img e w) as [[[]|x] w1] eqn:E.
    + destruct (generate_one_cases _ _ _ _ _ Hm E)
        as [(_ & Hload & _ & _ & _ & _ & ->)|(? & ? & _)]; [|done].
      destruct (IH _ _ _ H) as [k Hk]. cbn [stdout] in Hk.
      exists (S k). rewrite Hk. cbn [take fmap list_fmap]. by rewrite <- app_assoc.
    + destruct (generate_one_cases _ _ _ _ _ Hm E)
        as [(? & _)|(? & _ & _ & Hs & _)]; [done|].
      simplify_eq. exists 0%nat. rewrite Hs. by rewrite app_nil_r.
Qed.

Lemma success_line_head : head_char success_line = Some (ascii_of_nat 10).
Proof. by vm_compute. Qed.

Lemma not_success_line (lines : list string) :
  Forall (λ s, head_char s ≠ Some (ascii_of_nat 10)) lines →
  success_line ∉ lines.
Proof.
  intros Hall Hin. apply (proj1 (Forall_forall _ _) Hall) in Hin.
  by rewrite success_line_head in Hin.
Qed.

Lemma icon_lines_head (l : list (string * (Z * Z))) :
  Forall (λ s, head_char s ≠ Some (ascii_of_nat 10)) (icon_line <$> l).
Proof.
  apply Forall_fmap, Forall_forall. intros e _. cbn. discriminate.
Qed.

(** X8.  The success line is printed only by a run that wrote the whole
    table: if the line reporting 22 generated icons is among the lines a run
    printed, the run returned normally, made the 22 saves of the table and
    no other, and every entry reads back as a PNG of its size with an alpha
    band. *)
Theorem success_line_means_complete (d : gmap path node) :
  success_line ∈ stdout (run_icons d).2 → all_icons_written (run_icons d).
Proof.
  destruct (run_icons_cases d)
    as [H|[(n & e & H & Hmk)|[(n & d1 & H & Hn & Hmk)
        |[(im & d1 & x & H & Hnm & Hnl & Hmk)|(im & d1 & H & Hc & Hmk)]]]].
  - rewrite run_icons_missing by done. cbn [snd stdout]. intros Hin.
    exfalso. revert Hin. apply not_success_line.
    repeat constructor. by vm_compute.
  - erewrite run_icons_blocked by done. cbn [snd stdout]. intros Hin.
    by apply elem_of_nil in Hin.
  - erewrite run_icons_unreadable by done. cbn [snd stdout]. intros Hin.
    exfalso. revert Hin. apply not_success_line. unfold prelude_lines.
    repeat constructor; by vm_compute.
  - rewrite (run_icons_undecodable d d1 im x H Hnm Hnl Hmk). cbn [snd stdout].
    intros Hin. exfalso. revert Hin. apply not_success_line. unfold prelude_lines.
    repeat constructor; by vm_compute.
  - pose proof (working_image_mode im) as Hm.
    rewrite (run_icons_loop d d1 im H Hc Hmk).
    destruct (for_ _ _ _) as [[[]|x] w] eqn:E.
    + intros _.
      destruct (loop_ok _ _ Hm icon_paths_NoDup _ _ E) as (Hcs & _ & Hall).
      cbn [calls] in Hcs.
      unfold all_icons_written. cbn [fst snd disk calls]. rewrite Hcs.
      assert (filter is_save ((prelude_calls ++ convert_calls im)
                              ++ (ios_icon_sizes ≫= icon_calls)) = table_saves) as Hs.
      { rewrite !filter_app, filter_convert_calls by done. reflexivity. }
      rewrite Hs. split; [done|]. split; [done|]. split; [reflexivity|].
      eapply Forall_impl; [exact Hall|]. intros [fn [wd ht]] He. cbn [fst snd] in *.
      eexists. split; [exact He|]. cbn [im_size im_mode fst snd]. by rewrite Hm.
    + cbn [snd stdout]. intros Hin. exfalso. revert Hin.
      destruct (loop_stdout _ _ Hm _ _ _ E) as [k ->]. cbn [stdout].
      apply not_success_line. unfold prelude_lines.
      rewrite !Forall_app. split; [split; [|apply icon_lines_head]|].
      * repeat constructor; by vm_compute.
      * repeat constructor; by vm_compute.
Qed.

Lemma success_line_means_complete_witness :
  success_line ∈ stdout (run_icons (disk_with rgb_source)).2
  ∧ all_icons_written (run_icons (disk_with rgb_source)).
Proof.
  assert (success_line ∈ stdout (run_icons (disk_with rgb_source)).2) as H1
    by (apply (bool_decide_unpack _); vm_compute; exact I).
  split; [exact H1|]. exact (success_line_means_complete _ H1).
Defined.

(** ** Nodes outside a tool's footprint *)

Lemma is_dir_insert_ne (d : gmap path node) (k : path) (v : node) (q : path) :
  k ≠ q → is_dir (<[k := v]> d) q = is_dir d q.
Proof.
  intros Hne. destruct q as [|a q]; [done|]. unfold is_dir.
  by rewrite lookup_insert_ne.
Qed.

Lemma mkdirs_insert (name : string) (rest : path) :
  ∀ (pre : path) (d : gmap path node) (k : path) (v : node),
  k ∉ prefixes pre rest →
  mkdirs name pre rest (<[k := v]> d)
  = match mkdirs name pre rest d with
    | Ok d' => Ok (<[k := v]> d')
    | Raise e => Raise e
    end.
Proof.
  induction rest as [|c rest IH]; intros pre d k v Hk; simpl in *; [done|].
  apply not_elem_of_cons in Hk as [Hne Hk].
  rewrite lookup_insert_ne by done.
  destruct (d !! (pre ++ [c])) as [[|f]|] eqn:E.
  - by apply IH.
  - by destruct rest.
  - rewrite insert_insert_ne by done. by apply IH.
Qed.

Lemma generate_one_insert (img : image) (e : string * (Z * Z))
    (d : gmap path node) (s : list string) (c : list call) (pw : res ())
    (k : path) (v : node) :
  im_mode img = M_RGBA →
  k ≠ icon_path e.1 → k ≠ parent (icon_path e.1) →
  generate_one img e (World (<[k := v]> d) s c pw)
  = let '(r, w') := generate_one img e (World d s c pw) in
    (r, World (<[k := v]> (disk w')) (stdout w') (calls w') (pkg_write w')).
Proof.
  intros Hm Hk Hp. destruct e as [fn [wd ht]]. cbn [fst snd] in *.
  unfold generate_one, Image_resize, Image_save, icon_path in *.
  unfold mbind, M_bind, mret, M_ret, log, lift, get_disk, put_disk, raise, print.
  cbn [disk stdout calls pkg_write fst snd].
  destruct (im_load img) as [[]|x]; cbn [disk stdout calls pkg_write fst snd];
    [|done].
  destruct (bool_decide (0 < wd) && bool_decide (0 < ht));
    cbn [disk stdout calls pkg_write fst snd im_mode]; [|done].
  rewrite !is_dir_insert_ne by done. rewrite Hm.
  destruct (is_dir d (parent _)); cbn [negb disk stdout calls pkg_write]; [|done].
  destruct (is_dir d (components _)); cbn [negb png_writable disk stdout calls pkg_write];
    [done|].
  by rewrite insert_insert_ne.
Qed.

Lemma loop_insert (img : image) (l : list (string * (Z * Z))) (k : path) (v : node) :
  im_mode img = M_RGBA →
  Forall (λ e : string * (Z * Z),
            k ≠ icon_path e.1 ∧ k ≠ parent (icon_path e.1)) l →
  ∀ (d : gmap path node) (s : list string) (c : list call) (pw : res ()),
  for_ l (generate_one img) (World (<[k := v]> d) s c pw)
  = let '(r, w') := for_ l (generate_one img) (World d s c pw) in
    (r, World (<[k := v]> (disk w')) (stdout w') (calls w') (pkg_write w')).
Proof.
  intros Hm. induction 1 as [|e l [Hk Hp] _ IH]; intros d s c pw; [done|].
  rewrite !for_cons, generate_one_insert by done.
  destruct (generate_one img e (World d s c pw)) as [[[]|x] [d1 s1 c1 pw1]];
    cbn [disk stdout calls pkg_write]; [apply IH|done].
Qed.

(** A node outside the footprint of the icon generator is carried through
    a run and does not influence it. *)
Lemma run_icons_insert (d : gmap path node) (k : path) (v : node) :
  k ≠ components android_icon_path →
  k ∉ appicon_dirs →
  k ∉ icon_paths ios_icon_sizes →
  run_icons (<[k := v]> d)
  = let '(r, w') := run_icons d in
    (r, World (<[k := v]> (disk w')) (stdout w') (calls w') (pkg_write w')).
Proof.
  intros Hsrc Hdirs Hicons.
  assert (<[k := v]> d !! components android_icon_path
          = d !! components android_icon_path) as Hl by (by rewrite lookup_insert_ne).
  pose proof (mkdirs_insert ios_appicon_dir (components ios_appicon_dir) [] d k v Hdirs)
    as Hmki.
  destruct (run_icons_cases d)
    as [H|[(n & e & H & Hmk)|[(n & d1 & H & Hn & Hmk)
        |[(im & d1 & x & H & Hnm & Hnl & Hmk)|(im & d1 & H & Hc & Hmk)]]]].
  - rewrite (run_icons_missing d H).
    rewrite run_icons_missing by (by rewrite Hl). done.
  - rewrite (run_icons_blocked d n e H Hmk). rewrite Hmk in Hmki.
    rewrite (run_icons_blocked _ n e) by (by rewrite ?Hl). done.
  - rewrite (run_icons_unreadable d d1 n H Hn Hmk). rewrite Hmk in Hmki.
    rewrite (run_icons_unreadable _ (<[k := v]> d1) n) by (by rewrite ?Hl). done.
  - rewrite (run_icons_undecodable d d1 im x H Hnm Hnl Hmk). rewrite Hmk in Hmki.
    assert (source_image (<[k := v]> d) im) as H'.
    { destruct H as [fmt H]. exists fmt. by rewrite Hl. }
    by rewrite (run_icons_undecodable _ (<[k := v]> d1) im x H' Hnm Hnl Hmki).
  - rewrite (run_icons_loop d d1 im H Hc Hmk). rewrite Hmk in Hmki.
    assert (source_image (<[k := v]> d) im) as H'.
    { destruct H as [fmt H]. exists fmt. by rewrite Hl. }
    rewrite (run_icons_loop _ (<[k := v]> d1) im H' Hc Hmki).
    rewrite (loop_insert _ _ k v (working_image_mode im)).
    + destruct (for_ _ _ _) as [[[]|x] [d2 s2 c2 pw2]]; done.
    + apply Forall_forall. intros e He. split.
      * intros ->. apply Hicons. unfold icon_paths. apply list_elem_of_fmap.
        by exists e.
      * rewrite (proj1 (Forall_forall _ _) icon_parent e He). intros ->.
        apply Hdirs. exact appicon_dir_last.
Qed.

(** X9.  The icon generator neither reads nor writes outside its
    footprint: a node at a path that is not the source image, a destination
    directory or a table path has no influence on what a run returns, prints
    and calls, and is carried through the run unchanged. *)
Theorem icon_run_ignores_other_nodes (d : gmap path node) (k : path) (v : node) :
  k ≠ components android_icon_path →
  k ∉ appicon_dirs →
  k ∉ icon_paths ios_icon_sizes →
  run_icons (<[k := v]> d)
  = let '(r, w') := run_icons d in
    (r, World (<[k := v]> (disk w')) (stdout w') (calls w') (pkg_write w')).
Proof. apply run_icons_insert. Qed.

Lemma icon_run_ignores_other_nodes_witness :
  components output_path ≠ components android_icon_path
  ∧ (components output_path ∉ appicon_dirs)
  ∧ (components output_path ∉ icon_paths ios_icon_sizes)
  ∧ run_icons (<[components output_path := File (Blob "old")]> (disk_with rgb_source))
    = let '(r, w') := run_icons (disk_with rgb_source) in
      (r, World (<[components output_path := File (Blob "old")]> (disk w'))
                (stdout w') (calls w') (pkg_write w')).
Proof.
  assert (components output_path ≠ components android_icon_path) as H1
    by (apply (bool_decide_unpack _); vm_compute; exact I).
  split; [exact H1|]. split; [exact (proj1 output_not_icon_output)|].
  split; [exact (proj2 output_not_icon_output)|].
  exact (icon_run_ignores_other_nodes _ _ _ H1 (proj1 output_not_icon_output)
           (proj2 output_not_icon_output)).
Defined.

(** What a run of the exporter script returns, prints and calls depends on
    the disk only through the model artifact, through whether a regular file
    stands at the output path, and through where regular files stand above
    it; and so does what it does to the disk: nothing, or the save of the
    same package. *)
Lemma run_exporter_transfer (d d' : gmap path node) (pw : res ()) :
  d' !! components model_path = d !! components model_path →
  regular_file (d' !! components output_path)
  = regular_file (d !! components output_path) →
  (∀ q, q ∈ package_dirs → blocker (d' !! q) = blocker (d !! q)) →
  (run_exporter d' pw).1 = (run_exporter d pw).1
  ∧ stdout (run_exporter d' pw).2 = stdout (run_exporter d pw).2
  ∧ calls (run_exporter d' pw).2 = calls (run_exporter d pw).2
  ∧ ((disk (run_exporter d pw).2 = d ∧ disk (run_exporter d' pw).2 = d')
     ∨ ∃ m, save_package output_path m d = Ok (disk (run_exporter d pw).2)
            ∧ save_package output_path m d' = Ok (disk (run_exporter d' pw).2)).
Proof.
  intros Heq Hk Hq.
  assert (∀ m, loads d m → loads d' m) as Hloads
    by (intros m Hm; unfold loads in *; by rewrite Heq).
  assert (load_error d' = load_error d) as Herr
    by (unfold load_error; by rewrite Heq).
  destruct (load_cases d) as [H|[m H]].
  - assert (fails_to_load d') as H'.
    { intros m Hm. apply (H m). unfold loads in *. by rewrite <- Heq. }
    rewrite !main_load_fails by done. rewrite Herr. cbn [fst snd disk stdout calls].
    repeat split. by left.
  - pose proof (Hloads m H) as H'.
    destruct (sm_call m example_shape) as [[sh dt|r]|x] eqn:Hc.
    + rewrite (main_inspect_passes d pw m sh dt H Hc).
      rewrite (main_inspect_passes d' pw m sh dt H' Hc).
      rewrite (convert_model_loaded d m _ _ pw H), (convert_model_loaded d' m _ _ pw H').
      pose proof (save_package_agree output_path (packaged m (form_used m)) d d'
                    (eq_sym Hk) (λ q Hin, eq_sym (Hq q Hin))) as Hag.
      destruct (sm_coreml m (form_used m)) as [[]|e];
        [|cbn [fst snd disk stdout calls]; repeat split; by left].
      destruct pw as [[]|e];
        [|cbn [fst snd disk stdout calls]; repeat split; by left].
      destruct (save_package output_path (packaged m (form_used m)) d)
        as [dd|e1] eqn:E1;
        destruct (save_package output_path (packaged m (form_used m)) d')
          as [dd'|e2] eqn:E2; try done.
      * cbn [fst snd disk stdout calls]. repeat split. right.
        by exists (packaged m (form_used m)).
      * subst e2. cbn [fst snd disk stdout calls]. repeat split. by left.
    + unfold run_exporter, main, inspect_model, boot.
      unfold mbind, M_bind, print, try_. cbn [disk stdout calls pkg_write app].
      rewrite !(torch_jit_load_ok _ m) by done.
      unfold torch_rand, module_call, attr_shape, attr_dtype.
      unfold mbind, M_bind, mret, M_ret, log, lift, raise.
      cbn [disk stdout calls pkg_write app]. rewrite Hc.
      cbn [fst snd disk stdout calls pkg_write app]. repeat split. by left.
    + unfold run_exporter, main, inspect_model, boot.
      unfold mbind, M_bind, print, try_. cbn [disk stdout calls pkg_write app].
      rewrite !(torch_jit_load_ok _ m) by done.
      unfold torch_rand, module_call, attr_shape, attr_dtype.
      unfold mbind, M_bind, mret, M_ret, log, lift, raise.
      cbn [disk stdout calls pkg_write app]. rewrite Hc.
      cbn [fst snd disk stdout calls pkg_write app]. repeat split. by left.
Qed.

Lemma is_dir_ext (d d' : gmap path node) (q : path) :
  d' !! q = d !! q → is_dir d' q = is_dir d q.
Proof. intros H. destruct q as [|a q]; [done|]. unfold is_dir. by rewrite H. Qed.

(** One iteration depends on the disk only through whether its parent
    directory is there and whether a directory sits at its path. *)
Lemma generate_one_agree (img : image) (e : string * (Z * Z))
    (D D' : gmap path node) (s : list string) (c : list call) (pw : res ()) :
  im_mode img = M_RGBA →
  is_dir D' (parent (icon_path e.1)) = is_dir D (parent (icon_path e.1)) →
  is_dir D' (icon_path e.1) = is_dir D (icon_path e.1) →
  ∃ (r : res ()) (s1 : list string) (c1 : list call),
    generate_one img e (World D s c pw)
    = (r, World (if is_ok r then <[icon_path e.1 := icon_of img e.2]> D else D)
                s1 c1 pw)
    ∧ generate_one img e (World D' s c pw)
      = (r, World (if is_ok r then <[icon_path e.1 := icon_of img e.2]> D' else D')
                  s1 c1 pw).
Proof.
  intros Hm Hp Hk. destruct e as [fn [wd ht]]. cbn [fst snd] in *.
  unfold generate_one, Image_resize, Image_save, icon_path, icon_of in *.
  unfold mbind, M_bind, mret, M_ret, log, lift, get_disk, put_disk, raise, print.
  cbn [disk stdout calls pkg_write fst snd].
  destruct (im_load img) as [[]|x]; cbn [disk stdout calls pkg_write fst snd];
    [|eexists (Raise _), _, _; split; reflexivity].
  destruct (bool_decide (0 < wd) && bool_decide (0 < ht));
    cbn [disk stdout calls pkg_write fst snd im_mode];
    [|eexists (Raise _), _, _; split; reflexivity].
  rewrite Hm, Hp, Hk.
  destruct (is_dir D (parent _)); cbn [negb disk stdout calls pkg_write];
    [|eexists (Raise _), _, _; split; reflexivity].
  destruct (is_dir D (components _)); cbn [negb png_writable disk stdout calls pkg_write];
    [eexists (Raise _), _, _; split; reflexivity|].
  eexists (Ok ()), _, _; split; reflexivity.
Qed.

(** Two runs of the loop on disks that look alike at the table's paths and
    at their parent go the same way and write the same icons. *)
Lemma loop_agree (img : image) (l : list (string * (Z * Z))) :
  im_mode img = M_RGBA →
  ∀ (D D' : gmap path node) (s : list string) (c : list call) (pw : res ()),
  Forall (λ e : string * (Z * Z),
            is_dir D' (parent (icon_path e.1)) = is_dir D (parent (icon_path e.1))
            ∧ is_dir D' (icon_path e.1) = is_dir D (icon_path e.1)) l →
  ∃ (r : res ()) (w w' : world),
    for_ l (generate_one img) (World D s c pw) = (r, w)
    ∧ for_ l (generate_one img) (World D' s c pw) = (r, w')
    ∧ stdout w' = stdout w ∧ calls w' = calls w
    ∧ ∀ q : path, (disk w !! q = D !! q ∧ disk w' !! q = D' !! q)
                  ∨ (q ∈ icon_paths l ∧ disk w' !! q = disk w !! q).
Proof.
  intros Hm. induction l as [|e l IH]; intros D D' s c pw Hall.
  - eexists (Ok ()), _, _. split; [reflexivity|]. split; [reflexivity|].
    cbn [disk stdout calls]. split; [done|]. split; [done|]. intros q. by left.
  - apply Forall_cons in Hall as [[Hp Hk] Hall].
    destruct (generate_one_agree img e D D' s c pw Hm Hp Hk)
      as (r & s1 & c1 & E & E').
    rewrite !for_cons, E, E'. destruct r as [[]|x]; cbn [is_ok].
    + destruct (generate_one_cases _ _ _ _ _ Hm E)
        as [(_ & _ & _ & Hkf & _)|(? & ? & _)]; [|done].
      cbn [disk] in Hkf.
      destruct (IH (<[icon_path e.1 := icon_of img e.2]> D)
                  (<[icon_path e.1 := icon_of img e.2]> D') s1 c1 pw)
        as (r & w & w' & F & F' & Hs & Hc & Hq).
      { eapply Forall_impl; [exact Hall|]. intros e' [Hp' Hk']. cbn beta.
        unfold icon_of. rewrite !is_dir_insert_file by congruence. done. }
      exists r, w, w'. split; [done|]. split; [done|]. split; [done|].
      split; [done|]. intros q.
      destruct (Hq q) as [[H1 H2]|[Hin Heq]].
      * destruct (decide (icon_path e.1 = q)) as [<-|Hne].
        -- right. split; [apply elem_of_cons; by left|].
           rewrite H1, H2. by rewrite !lookup_insert_eq.
        -- left. by rewrite H1, H2, !lookup_insert_ne.
      * right. split; [apply elem_of_cons; by right|done].
    + eexists _, _, _. split; [reflexivity|]. split; [reflexivity|].
      cbn [disk stdout calls]. split; [done|]. split; [done|]. intros q. by left.
Qed.

(** What a run of the icon generator returns, prints and calls depends on
    the disk only through the source image, the table's paths and where
    regular files stand on the way of the destination directory. *)
Lemma run_icons_transfer (d d' : gmap path node) :
  d' !! components android_icon_path = d !! components android_icon_path →
  (∀ q, q ∈ icon_paths ios_icon_sizes → d' !! q = d !! q) →
  (∀ q, q ∈ appicon_dirs → blocker (d' !! q) = blocker (d !! q)) →
  (run_icons d').1 = (run_icons d).1
  ∧ stdout (run_icons d').2 = stdout (run_icons d).2
  ∧ calls (run_icons d').2 = calls (run_icons d).2
  ∧ ∀ q : path,
      (disk (run_icons d).2 !! q = d !! q ∧ disk (run_icons d').2 !! q = d' !! q)
      ∨ (q ∈ appicon_dirs ∧ disk (run_icons d).2 !! q = Some Dir
         ∧ disk (run_icons d').2 !! q = Some Dir)
      ∨ (q ∈ icon_paths ios_icon_sizes
         ∧ disk (run_icons d').2 !! q = disk (run_icons d).2 !! q).
Proof.
  intros Hsrc Hicons Hdirs.
  assert (∀ q, q ∈ appicon_dirs → blocker (d !! q) = blocker (d' !! q)) as Hdirs'
    by (intros q Hq; symmetry; by apply Hdirs).
  assert (∀ d1 d1',
            mkdirs ios_appicon_dir [] (components ios_appicon_dir) d = Ok d1 →
            mkdirs ios_appicon_dir [] (components ios_appicon_dir) d' = Ok d1' →
            ∀ q, (d1 !! q = d !! q ∧ d1' !! q = d' !! q)
                 ∨ (q ∈ appicon_dirs ∧ d1 !! q = Some Dir ∧ d1' !! q = Some Dir))
    as Hmade.
  { intros d1 d1' Hmk Hmk' q.
    rewrite (mkdirs_lookup _ _ _ _ _ q Hmk), (mkdirs_lookup _ _ _ _ _ q Hmk').
    case_bool_decide; [by right|by left]. }
  destruct (run_icons_cases d)
    as [H|[(n & e & H & Hmk)|[(n & d1 & H & Hn & Hmk)
        |[(im & d1 & x & H & Hnm & Hnl & Hmk)|(im & d1 & H & Hc & Hmk)]]]].
  - rewrite (run_icons_missing d H), (run_icons_missing d') by (by rewrite Hsrc).
    cbn [fst snd disk stdout calls]. repeat split. by left.
  - pose proof (mkdirs_raise_agree _ _ _ _ _ _ Hdirs' Hmk) as Hmk'.
    rewrite (run_icons_blocked d n e H Hmk), (run_icons_blocked d' n e)
      by (by rewrite ?Hsrc).
    cbn [fst snd disk stdout calls]. repeat split. by left.
  - destruct (mkdirs_ok_agree _ _ _ _ _ _ Hdirs' Hmk) as [d1' Hmk'].
    rewrite (run_icons_unreadable d d1 n H Hn Hmk),
      (run_icons_unreadable d' d1' n) by (by rewrite ?Hsrc).
    cbn [fst snd disk stdout calls]. repeat split. intros q.
    destruct (Hmade d1 d1' Hmk Hmk' q) as [?|?]; [by left|by right; left].
  - destruct (mkdirs_ok_agree _ _ _ _ _ _ Hdirs' Hmk) as [d1' Hmk'].
    assert (source_image d' im) as H'.
    { destruct H as [fmt H]. exists fmt. by rewrite Hsrc. }
    rewrite (run_icons_undecodable d d1 im x H Hnm Hnl Hmk),
      (run_icons_undecodable d' d1' im x H' Hnm Hnl Hmk').
    cbn [fst snd disk stdout calls]. repeat split. intros q.
    destruct (Hmade d1 d1' Hmk Hmk' q) as [?|?]; [by left|by right; left].
  - destruct (mkdirs_ok_agree _ _ _ _ _ _ Hdirs' Hmk) as [d1' Hmk'].
    assert (source_image d' im) as H'.
    { destruct H as [fmt H]. exists fmt. by rewrite Hsrc. }
    rewrite (run_icons_loop d d1 im H Hc Hmk), (run_icons_loop d' d1' im H' Hc Hmk').
    destruct (loop_agree (working_image im) ios_icon_sizes (working_image_mode im)
                d1 d1'
                (prelude_lines
                 ++ ["源图标尺寸: " +:+ show_size (im_size (working_image im))])
                (prelude_calls ++ convert_calls im) (Ok ()))
      as (r & w & w' & F & F' & Hs & Hcs & Hq).
    { apply Forall_forall. intros e He. split.
      - rewrite (proj1 (Forall_forall _ _) icon_parent e He).
        apply is_dir_ext.
        rewrite (proj1 (Forall_forall _ _) (mkdirs_creates _ _ _ _ _ Hmk)
                   _ appicon_dir_last).
        by rewrite (proj1 (Forall_forall _ _) (mkdirs_creates _ _ _ _ _ Hmk')
                      _ appicon_dir_last).
      - apply is_dir_ext.
        assert (icon_path e.1 ∈ icon_paths ios_icon_sizes) as Hin.
        { unfold icon_paths. apply list_elem_of_fmap. by exists e. }
        rewrite (mkdirs_frame _ _ _ _ _ _ Hmk),
          (mkdirs_frame _ _ _ _ _ _ Hmk');
          [by apply Hicons| |];
          by apply (proj1 (Forall_forall _ _) icon_not_dir). }
    rewrite F, F'.
    assert (∀ q : path,
              (disk w !! q = d !! q ∧ disk w' !! q = d' !! q)
              ∨ (q ∈ appicon_dirs ∧ disk w !! q = Some Dir ∧ disk w' !! q = Some Dir)
              ∨ (q ∈ icon_paths ios_icon_sizes ∧ disk w' !! q = disk w !! q)) as Hfin.
    { intros q. destruct (Hq q) as [[H1 H2]|[Hin Heq]]; [|by right; right].
      rewrite H1, H2.
      destruct (Hmade d1 d1' Hmk Hmk' q) as [?|?]; [by left|by right; left]. }
    destruct r as [[]|x]; cbn [fst snd disk stdout calls]; by rewrite Hs, Hcs.
Qed.

Lemma package_dirs_not_icons :
  Forall (λ p, p ∉ icon_paths ios_icon_sizes) package_dirs.
Proof. apply (bool_decide_unpack _). by vm_compute. Qed.

(** X10.  The two tools are independent: run one after the other in either
    order, with the same answer of the environment to the package write,
    they leave the same disk, and each returns, prints and calls exactly
    what it would have on the original disk. *)
Theorem tools_commute (d : gmap path node) (pw : res ()) :
  disk (run_exporter (disk (run_icons d).2) pw).2
    = disk (run_icons (disk (run_exporter d pw).2)).2
  ∧ (run_exporter (disk (run_icons d).2) pw).1 = (run_exporter d pw).1
  ∧ stdout (run_exporter (disk (run_icons d).2) pw).2 = stdout (run_exporter d pw).2
  ∧ calls (run_exporter (disk (run_icons d).2) pw).2 = calls (run_exporter d pw).2
  ∧ (run_icons (disk (run_exporter d pw).2)).1 = (run_icons d).1
  ∧ stdout (run_icons (disk (run_exporter d pw).2)).2 = stdout (run_icons d).2
  ∧ calls (run_icons (disk (run_exporter d pw).2)).2 = calls (run_icons d).2.
Proof.
  destruct (off_package_spec _ model_off_package) as [Hmo1 Hmo2].
  destruct (off_package_spec _ source_off_package) as [Hso1 Hso2].
  destruct output_not_icon_output as [Hko1 Hko2].
  assert (disk (run_icons d).2 !! components model_path = d !! components model_path)
    as Hm.
  { apply run_icons_frame;
      [exact (proj1 model_not_icon_output)|exact (proj2 model_not_icon_output)]. }
  assert (regular_file (disk (run_icons d).2 !! components output_path)
          = regular_file (d !! components output_path)) as Hk.
  { by rewrite run_icons_frame. }
  assert (∀ q, q ∈ package_dirs →
            blocker (disk (run_icons d).2 !! q) = blocker (d !! q)) as Hq.
  { intros q Hin.
    destruct (run_icons_changes d q)
      as [->|[(_ & Hn & Hd)|(e & im & He & _ & -> & _)]]; [done|by rewrite Hn, Hd|].
    exfalso. apply (proj1 (Forall_forall _ _) package_dirs_not_icons _ Hin).
    unfold icon_paths. apply list_elem_of_fmap. by exists e. }
  destruct (run_exporter_transfer d (disk (run_icons d).2) pw Hm Hk Hq)
    as (Hr & Hs & Hc & Hdisk).
  destruct (run_exporter_frame d pw) as (_ & Hf & Hd & _).
  assert (∀ q, q ∈ icon_paths ios_icon_sizes →
            (q ∉ package_dirs) ∧ ¬ components output_path `prefix_of` q) as Hoff.
  { intros q Hin. apply off_package_spec.
    by apply (proj1 (Forall_forall _ _) icons_off_package). }
  assert (∀ q, q ∈ appicon_dirs →
            blocker (disk (run_exporter d pw).2 !! q) = blocker (d !! q)) as Hb.
  { intros q Hin. destruct (decide (q ∈ package_dirs)) as [Hp|Hp].
    - destruct (Hd q Hp) as [->|[Hn ->]]; [done|by rewrite Hn].
    - rewrite Hf; [done|done|].
      by apply (proj1 (Forall_forall _ _) appicon_dirs_not_below). }
  destruct (run_icons_transfer d (disk (run_exporter d pw).2))
    as (Hr' & Hs' & Hc' & Hq'); [by apply Hf| |done|].
  { intros q Hin. destruct (Hoff q Hin). by apply Hf. }
  split; [|by repeat split].
  destruct Hdisk as [[H1 H2]|(m & S1 & S2)]; [by rewrite H2, H1|].
  apply map_eq. intros q.
  destruct (Hq' q) as [[A1 A2]|[(Hin & A1 & A2)|(Hin & A)]].
  - rewrite (save_package_lookup _ _ _ _ q S2), A2,
      (save_package_lookup _ _ _ _ q S1), A1. reflexivity.
  - rewrite A2. destruct (decide (q ∈ package_dirs)) as [Hp|Hp].
    + exact (proj1 (save_package_dirs _ _ _ _ q S2 Hp)).
    + rewrite (save_package_frame _ _ _ q S2 Hp); [exact A1|].
      exact (proj1 (Forall_forall _ _) appicon_dirs_not_below q Hin).
  - rewrite A. destruct (Hoff q Hin) as [Ho1 Ho2].
    exact (save_package_frame _ _ _ q S2 Ho1 Ho2).
Qed.


